(** * BigQuery MCP server: a shallow embedding of the validator, the secret
    provider, the BigQuery service and the [execute_query] tool.

    Python [str] values are modelled as lists of code points below 256
    ([list ascii]); Python [int] values as [Z]. *)

From Stdlib Require Import ZArith List Ascii String Bool Lia QArith.
Import ListNotations.
Open Scope Z_scope.

(* ------------------------------------------------------------------ *)
(** ** Python string primitives used by the sources *)
(* ------------------------------------------------------------------ *)

Module PyStr.

Definition pystr := list ascii.

(** A literal. *)
Definition str (s : string) : pystr := list_ascii_of_string s.

Definition code (c : ascii) : N := N_of_ascii c.

(** [str.isspace] on one code point below 256: TAB..CR, FS..US, SPACE,
    NEL and NBSP. *)
Definition isspace (c : ascii) : bool :=
  let n := code c in
  ((9 <=? n) && (n <=? 13) || (28 <=? n) && (n <=? 32)
   || (n =? 133) || (n =? 160))%N.

(** [str.lower] on one code point below 256. *)
Definition lower_char (c : ascii) : ascii :=
  let n := code c in
  if ((65 <=? n) && (n <=? 90)
      || (192 <=? n) && (n <=? 222) && negb (n =? 215))%N
  then ascii_of_N (n + 32) else c.

Definition lower (s : pystr) : pystr := map lower_char s.

Fixpoint lstrip (s : pystr) : pystr :=
  match s with
  | c :: rest => if isspace c then lstrip rest else s
  | [] => []
  end.

Definition rstrip (s : pystr) : pystr := rev (lstrip (rev s)).

Definition strip (s : pystr) : pystr := rstrip (lstrip s).

(** The maximal prefix without whitespace. *)
Fixpoint take_token (s : pystr) : pystr :=
  match s with
  | c :: rest => if isspace c then [] else c :: take_token rest
  | [] => []
  end.

(** [s.split(None, 1)[0]]: the first whitespace-delimited token;
    [None] stands for the [IndexError] on a string without tokens. *)
Definition split_first (s : pystr) : option pystr :=
  match lstrip s with
  | [] => None
  | t => Some (take_token t)
  end.

Definition eq_dec : forall a b : pystr, {a = b} + {a <> b} :=
  list_eq_dec ascii_dec.

(** [x in xs] for a set or a tuple of strings. *)
Definition mem (x : pystr) (xs : list pystr) : bool :=
  if in_dec eq_dec x xs then true else false.

(** [c in s] for a one-character [c]. *)
Definition contains (c : ascii) (s : pystr) : bool :=
  existsb (Ascii.eqb c) s.

(** [s[:-1]]. *)
Definition drop_last (s : pystr) : pystr := removelast s.

(** [s.endswith(c)] for a one-character [c]. *)
Definition endswith (s : pystr) (c : ascii) : bool :=
  match rev s with
  | d :: _ => Ascii.eqb d c
  | [] => false
  end.

(** [s.replace(c, '')] for a one-character [c]. *)
Definition remove_char (c : ascii) (s : pystr) : pystr :=
  filter (fun d => negb (Ascii.eqb d c)) s.

(** Truthiness of a string. *)
Definition truthy (s : pystr) : bool :=
  match s with [] => false | _ => true end.

End PyStr.
Import PyStr.

(* ------------------------------------------------------------------ *)
(** ** exceptions.py *)
(* ------------------------------------------------------------------ *)

(** The exception hierarchy of the server, with the messages the sources
    raise them with, and the foreign exceptions the sources catch. *)
Inductive Exn :=
| ConfigurationError (msg : pystr)
| CredentialRetrievalError (msg : pystr)
| CredentialRefreshError (msg : pystr)
| TableNotFoundError (msg : pystr)
| QueryValidationError (msg : pystr)
| QueryExecutionError (msg : pystr)
| GoogleAPICallError (message : pystr) (code : option Z)
| NotFound (message : pystr)
| ForeignError (name : string).

(** [isinstance(exc, GoogleAPICallError)]: [NotFound] is a subclass. *)
Definition is_google_api_call_error (exc : Exn) : bool :=
  match exc with
  | GoogleAPICallError _ _ | NotFound _ => true
  | _ => false
  end.

(** [getattr(exc, "code", None)]. *)
Definition exc_code (exc : Exn) : option Z :=
  match exc with
  | GoogleAPICallError _ c => c
  | NotFound _ => Some 404
  | _ => None
  end.

(** [exc.message if hasattr(exc, 'message') else exc], as text. *)
Definition exc_message (exc : Exn) : pystr :=
  match exc with
  | GoogleAPICallError m _ | NotFound m => m
  | _ => []
  end.

(** The outcome of a call: a value or a raised exception. *)
Inductive Outcome (A : Type) :=
| Return (a : A)
| Raise (e : Exn).
Arguments Return {A} a.
Arguments Raise {A} e.

(* ------------------------------------------------------------------ *)
(** ** validators.py *)
(* ------------------------------------------------------------------ *)

Module Validators.

Definition READ_ONLY_PREFIXES : list pystr :=
  [str "select"; str "with"; str "explain"].

Definition PROHIBITED_PREFIXES : list pystr :=
  [str "insert"; str "update"; str "delete"; str "drop"; str "alter";
   str "create"; str "merge"; str "truncate"; str "grant"; str "revoke"].

Definition msg_empty : pystr := str "SQL query cannot be empty".
Definition msg_read_only : pystr :=
  str "Only read-only queries are allowed (SELECT/WITH/EXPLAIN).".
Definition msg_must_start : pystr :=
  str "SQL must start with SELECT, WITH, or EXPLAIN for safety.".
Definition msg_multiple : pystr :=
  str "Multiple SQL statements are not supported".

Definition validate_sql_query (sql_query : pystr) : Outcome pystr :=
  if negb (truthy sql_query) || negb (truthy (strip sql_query)) then
    Raise (QueryValidationError msg_empty)
  else
    let normalized := strip sql_query in
    let lower := lower normalized in
    match split_first lower with
    | None => Raise (ForeignError "IndexError")
    | Some first_token =>
        if mem first_token PROHIBITED_PREFIXES then
          Raise (QueryValidationError msg_read_only)
        else if negb (mem first_token READ_ONLY_PREFIXES) then
          Raise (QueryValidationError msg_must_start)
        else if contains ";" (drop_last normalized) then
          Raise (QueryValidationError msg_multiple)
        else
          let normalized :=
            if endswith normalized ";" then drop_last normalized
            else normalized in
          Return (strip normalized)
    end.

End Validators.
Import Validators.

(** A credential payload: the JSON object of a service account, its
    values kept as text. *)
Definition Payload := list (pystr * pystr).

(** [d.get(key)]. *)
Fixpoint dict_get (key : pystr) (d : Payload) : option pystr :=
  match d with
  | (k, v) :: rest => if PyStr.eq_dec k key then Some v else dict_get key rest
  | [] => None
  end.

(* ------------------------------------------------------------------ *)
(** ** aws_secrets.py *)
(* ------------------------------------------------------------------ *)

Module AwsSecrets.

(** What one [get_secret_value] call does: a response with its two
    optional fields, or a [ClientError] with the error code of its
    response when there is one. *)
Inductive SecretResponse :=
| Response (SecretString SecretBinary : option pystr)
| ClientError (Code : option pystr).

Inductive JsonValue :=
| JsonDict (d : Payload)
| JsonOther.

(** The remote store and the two decoders, as the provider sees them.
    [get_secret_value n] is the store's answer to call number [n];
    a decoder returns [None] where Python raises. *)
Record Boto := {
  get_secret_value : nat -> pystr -> SecretResponse;
  b64decode_utf8 : pystr -> option pystr;
  json_loads : pystr -> option JsonValue
}.

Inductive Event :=
| EvGetSecretValue (SecretId : pystr)
| EvSleep (seconds : Q).

Record World := { calls : nat; trace : list Event }.

Definition emit (e : Event) (w : World) : World :=
  {| calls := calls w; trace := trace w ++ [e] |}.

Definition THROTTLING : list pystr :=
  [str "ThrottlingException"; str "TooManyRequestsException"].

Definition msg_after_retries (secret_name : pystr) : pystr :=
  str "Failed to retrieve secret '" ++ secret_name ++ str "' after retries".

Definition msg_unable (secret_name error_code : pystr) : pystr :=
  str "Unable to retrieve secret '" ++ secret_name ++ str "': "
  ++ (if truthy error_code then error_code else str "unknown error").

(** The body of the [try] once the call has returned [response]. *)
Definition decode_response (boto : Boto) (SecretString SecretBinary : option pystr)
  : Outcome Payload :=
  let payload :=
    match SecretString with
    | Some p => Return p
    | None =>
        match SecretBinary with
        | None =>
            Raise (CredentialRetrievalError (str "Secret did not contain a value"))
        | Some secret_binary =>
            match b64decode_utf8 boto secret_binary with
            | Some p => Return p
            | None => Raise (ForeignError "ValueError")
            end
        end
    end in
  match payload with
  | Raise e => Raise e
  | Return p =>
      match json_loads boto p with
      | None =>
          Raise (CredentialRetrievalError (str "Secret payload is not valid JSON"))
      | Some JsonOther =>
          Raise (CredentialRetrievalError
                   (str "Expected JSON object for service-account secret"))
      | Some (JsonDict data) => Return data
      end
  end.

(** [2**attempt * 0.5], exact on the dyadic values it takes. *)
Definition backoff (attempt : nat) : Q :=
  inject_Z (2 ^ Z.of_nat attempt) * (1 # 2).

(** The [for attempt in ...] loop over the attempts still to run. *)
Fixpoint fetch_loop (boto : Boto) (secret_name : pystr) (attempts : list nat)
    (last_error : option SecretResponse) (w : World) : Outcome Payload * World :=
  match attempts with
  | [] => (Raise (CredentialRetrievalError (msg_after_retries secret_name)), w)
  | attempt :: rest =>
      let response := get_secret_value boto (calls w) secret_name in
      let w := emit (EvGetSecretValue secret_name)
                 {| calls := S (calls w); trace := trace w |} in
      match response with
      | Response SecretString SecretBinary =>
          (decode_response boto SecretString SecretBinary, w)
      | ClientError Code =>
          let last_error := Some response in
          let error_code := match Code with Some c => c | None => [] end in
          if mem error_code THROTTLING && (attempt <? 2)%nat then
            let w := emit (EvSleep (backoff attempt)) w in
            fetch_loop boto secret_name rest last_error w
          else
            (Raise (CredentialRetrievalError (msg_unable secret_name error_code)), w)
      end
  end.

Definition fetch_service_account (boto : Boto) (secret_name : pystr) (w : World)
  : Outcome Payload * World :=
  fetch_loop boto secret_name (seq 0 3) None w.

End AwsSecrets.

(* ------------------------------------------------------------------ *)
(** ** bigquery_service.py *)
(* ------------------------------------------------------------------ *)

Module Service.

(** A [bigquery.Client] handle; [client_id] tells the handles apart. *)
Record Client := {
  client_id : nat;
  project : pystr;
  credentials : Payload
}.

Definition Row := list (pystr * pystr).

Record QueryChunk := { chunk_index : Z; rows : list Row }.

Record QueryJob := {
  job_id : pystr;
  job_statement_type : option pystr;
  total_rows : option Z;
  job_cache_hit : option bool;
  total_bytes_processed : option Z;
  job_slot_millis : option Z
}.

(** The wall-clock field [duration_ms] is left out: no clock is modelled. *)
Record QueryResult := {
  result_job_id : pystr;
  statement_type : option pystr;
  row_count : Z;
  chunks : list QueryChunk;
  cache_hit : option bool;
  bytes_processed : option Z;
  slot_millis : option Z;
  truncated : bool
}.

(** One step of the row iterator: a row, or an exception raised by the
    next page fetch. *)
Inductive IterItem :=
| Yield (row : Row)
| IterRaise (exc : Exn).

(** [client.query(...)] followed by [query_job.result(...)]. *)
Inductive Submission :=
| Submitted (query_job : QueryJob) (iterator : list IterItem)
| SubmitRaise (exc : Exn).

#[warnings="-register-all"]
Inductive SchemaField :=
| Field (name field_type mode : pystr) (description : option pystr)
        (fields : list SchemaField).

Inductive TableLookup :=
| Table (schema : list SchemaField)
| LookupRaise (exc : Exn).

(** The collaborators of the service: the injected credential loader
    (its answer to call number [n]), the credential parser (whether it
    accepts a payload) and the warehouse (its answer to submission
    number [n], and to a metadata lookup). *)
Record Env := {
  credential_loader : nat -> Outcome Payload;
  from_service_account_info : Payload -> bool;
  client_query : nat -> Client -> pystr -> Submission;
  client_get_table : Client -> pystr -> TableLookup
}.

Inductive Event :=
| EvLoadCredentials
| EvNewClient (client : Client)
| EvAcquire
| EvRelease
| EvClose (client : nat)
| EvSetClient (client : option nat)
| EvSetCredentialsInfo
| EvQuery (client : nat) (sql : pystr) (timeout page_size : Z)
| EvGetTable (client : nat) (table_ref : pystr).

Record BigQueryService := {
  _default_project : option pystr;
  _query_timeout_seconds : Z;
  _row_chunk_size : Z;
  _client : option Client;
  _credentials_info : option Payload
}.

Record World := {
  self : BigQueryService;
  loader_calls : nat;
  queries : nat;
  clients : nat;
  trace : list Event
}.

(** Computations of the service: they read the collaborators, update the
    world and return or raise. *)
Definition M (A : Type) := Env -> World -> Outcome A * World.

Definition ret {A} (a : A) : M A := fun _ w => (Return a, w).

Definition raise {A} (e : Exn) : M A := fun _ w => (Raise e, w).

Definition bind {A B} (m : M A) (k : A -> M B) : M B :=
  fun env w =>
    match m env w with
    | (Return a, w') => k a env w'
    | (Raise e, w') => (Raise e, w')
    end.

Notation "x <- m ;; k" := (bind m (fun x => k))
  (at level 61, m at next level, right associativity).
Notation "m ;; k" := (bind m (fun _ => k))
  (at level 61, right associativity).

(** [try: m except ...: handler]; a handler that does not match
    re-raises. *)
Definition try_except {A} (m : M A) (handler : Exn -> M A) : M A :=
  fun env w =>
    match m env w with
    | (Return a, w') => (Return a, w')
    | (Raise e, w') => handler e env w'
    end.

(** The world with one more event on its trace. *)
Definition log (e : Event) (w : World) : World :=
  {| self := self w; loader_calls := loader_calls w; queries := queries w;
     clients := clients w; trace := trace w ++ [e] |}.

(** The world with the attributes of the service replaced. *)
Definition with_self (s : BigQueryService) (w : World) : World :=
  {| self := s; loader_calls := loader_calls w; queries := queries w;
     clients := clients w; trace := trace w |}.

(** The world after one more call of the credential loader, one more
    submission, one more client construction. *)
Definition loader_called (w : World) : World :=
  {| self := self w; loader_calls := S (loader_calls w); queries := queries w;
     clients := clients w; trace := trace w |}.

Definition query_submitted (w : World) : World :=
  {| self := self w; loader_calls := loader_calls w; queries := S (queries w);
     clients := clients w; trace := trace w |}.

Definition client_built (w : World) : World :=
  {| self := self w; loader_calls := loader_calls w; queries := queries w;
     clients := S (clients w); trace := trace w |}.

Definition emit (e : Event) : M unit := fun _ w => (Return tt, log e w).

Definition get_self : M BigQueryService := fun _ w => (Return (self w), w).

Definition put_self (s : BigQueryService) : M unit :=
  fun _ w => (Return tt, with_self s w).

(** [with self._client_lock: body]; the lock is released on the way out
    whether [body] returns or raises. *)
Definition with_lock {A} (body : M A) : M A :=
  fun env w =>
    match body env (log EvAcquire w) with
    | (r, w') => (r, log EvRelease w')
    end.

(** [self._client = c]. *)
Definition set_client (c : option Client) : M unit :=
  s <- get_self ;;
  emit (EvSetClient (option_map client_id c)) ;;
  put_self {| _default_project := _default_project s;
              _query_timeout_seconds := _query_timeout_seconds s;
              _row_chunk_size := _row_chunk_size s;
              _client := c;
              _credentials_info := _credentials_info s |}.

(** [self._credentials_info = info]. *)
Definition set_credentials_info (info : Payload) : M unit :=
  s <- get_self ;;
  emit EvSetCredentialsInfo ;;
  put_self {| _default_project := _default_project s;
              _query_timeout_seconds := _query_timeout_seconds s;
              _row_chunk_size := _row_chunk_size s;
              _client := _client s;
              _credentials_info := Some info |}.

(** [self._credential_loader()]. *)
Definition call_credential_loader : M Payload :=
  fun env w =>
    (credential_loader env (loader_calls w),
     log EvLoadCredentials (loader_called w)).

(** [Credentials.from_service_account_info(...)] and
    [bigquery.Client(project=..., credentials=...)]. *)
Definition new_client (project : pystr) (credentials_info : Payload) : M Client :=
  fun env w =>
    if from_service_account_info env credentials_info then
      let client := {| client_id := clients w; project := project;
                       credentials := credentials_info |} in
      (Return client, log (EvNewClient client) (client_built w))
    else (Raise (ForeignError "ValueError"), w).

(** [a or b] on optional strings. *)
Definition py_or (a b : option pystr) : option pystr :=
  match a with
  | Some s => if truthy s then a else b
  | None => b
  end.

Definition py_truthy (a : option pystr) : bool :=
  match a with
  | Some s => truthy s
  | None => false
  end.

Definition msg_no_project : pystr :=
  str "BIGQUERY_PROJECT is required when the secret is missing project_id".

Definition msg_refresh : pystr := str "Unable to load credentials from secret".

Definition refresh_client : M unit :=
  credentials_info <-
    try_except call_credential_loader
      (fun _ => raise (CredentialRefreshError msg_refresh)) ;;
  s <- get_self ;;
  let project := py_or (_default_project s)
                       (dict_get (str "project_id") credentials_info) in
  match project with
  | Some project_name =>
      if truthy project_name then
        client <- new_client project_name credentials_info ;;
        with_lock (
          s <- get_self ;;
          match _client s with
          | Some old => emit (EvClose (client_id old))
          | None => ret tt
          end ;;
          set_client (Some client) ;;
          set_credentials_info credentials_info)
      else raise (ConfigurationError msg_no_project)
  | None => raise (ConfigurationError msg_no_project)
  end.

Definition close : M unit :=
  with_lock (
    s <- get_self ;;
    match _client s with
    | Some c => emit (EvClose (client_id c)) ;; set_client None
    | None => ret tt
    end).

Definition _require_client : M Client :=
  with_lock (
    s <- get_self ;;
    match _client s with
    | None => raise (QueryExecutionError (str "BigQuery client is not initialized"))
    | Some c => ret c
    end).

(** The serialized form of a schema field (a dict with five keys). *)
#[warnings="-register-all"]
Inductive SchemaDict :=
| SchemaEntry (name type mode : pystr) (description : option pystr)
              (fields : list SchemaDict).

Fixpoint _serialize_schema_field (field : SchemaField) : SchemaDict :=
  match field with
  | Field name field_type mode description fields =>
      SchemaEntry name field_type mode description
                  (map _serialize_schema_field fields)
  end.

Definition _build_table_reference (dataset_id table_name default_project : pystr)
  : pystr :=
  let sanitized_dataset := strip (remove_char "`" dataset_id) in
  if contains "." sanitized_dataset then
    sanitized_dataset ++ str "." ++ table_name
  else
    default_project ++ str "." ++ sanitized_dataset ++ str "." ++ table_name.

(** [client.get_table(table_ref)]. *)
Definition get_table (client : Client) (table_ref : pystr) : M (list SchemaField) :=
  fun env w =>
    let w' := log (EvGetTable (client_id client) table_ref) w in
    match client_get_table env client table_ref with
    | Table schema => (Return schema, w')
    | LookupRaise exc => (Raise exc, w')
    end.

Definition get_table_schema (dataset_id table_name : pystr) : M (list SchemaDict) :=
  client <- _require_client ;;
  let table_ref := _build_table_reference dataset_id table_name (project client) in
  schema <-
    try_except (get_table client table_ref)
      (fun exc =>
         match exc with
         | NotFound _ =>
             raise (TableNotFoundError
                      (str "Table '" ++ table_ref ++ str "' was not found"))
         | GoogleAPICallError _ _ =>
             raise (QueryExecutionError (str "Failed to retrieve table schema"))
         | _ => raise exc
         end) ;;
  ret (map _serialize_schema_field schema).

(** [error_code in {401, 403}]. *)
Definition is_auth_code (error_code : option Z) : bool :=
  match error_code with
  | Some c => (c =? 401) || (c =? 403)
  | None => false
  end.

Definition _maybe_refresh_on_auth_error (exc : Exn) : M unit :=
  let error_code := exc_code exc in
  if is_auth_code error_code then
    try_except refresh_client
      (fun e =>
         match e with
         | CredentialRefreshError _ => ret tt
         | _ => raise e
         end)
  else ret tt.

(** [client.query(sql_query)] and [query_job.result(timeout=..., page_size=...)]. *)
Definition submit (client : Client) (sql_query : pystr) (timeout page_size : Z)
  : M (QueryJob * list IterItem) :=
  fun env w =>
    let w' := log (EvQuery (client_id client) sql_query timeout page_size)
                  (query_submitted w) in
    match client_query env (queries w) client sql_query with
    | Submitted query_job iterator => (Return (query_job, iterator), w')
    | SubmitRaise exc => (Raise exc, w')
    end.

(** The local variables of the streaming loop. *)
Record LoopState := {
  loop_row_count : Z;
  loop_chunk_index : Z;
  loop_chunks : list QueryChunk;
  current_chunk : list Row
}.

Definition loop_start : LoopState :=
  {| loop_row_count := 0; loop_chunk_index := 0; loop_chunks := [];
     current_chunk := [] |}.

(** One turn of [for row in iterator] up to the [break] test. *)
Definition loop_body (row_chunk_size : Z) (row : Row) (st : LoopState) : LoopState :=
  let current := current_chunk st ++ [row] in
  let row_count := loop_row_count st + 1 in
  if Z.of_nat (List.length current) >=? row_chunk_size then
    {| loop_row_count := row_count;
       loop_chunk_index := loop_chunk_index st + 1;
       loop_chunks := loop_chunks st
                      ++ [{| chunk_index := loop_chunk_index st; rows := current |}];
       current_chunk := [] |}
  else
    {| loop_row_count := row_count;
       loop_chunk_index := loop_chunk_index st;
       loop_chunks := loop_chunks st;
       current_chunk := current |}.

(** The [for] loop with its [break], inside its [try]. *)
Fixpoint stream_rows (row_chunk_size max_rows : Z) (iterator : list IterItem)
    (st : LoopState) : Outcome LoopState :=
  match iterator with
  | [] => Return st
  | IterRaise exc :: _ =>
      if is_google_api_call_error exc then
        Raise (QueryExecutionError (str "Error streaming query results"))
      else Raise exc
  | Yield row :: rest =>
      let st := loop_body row_chunk_size row st in
      if loop_row_count st >=? max_rows then Return st
      else stream_rows row_chunk_size max_rows rest st
  end.

(** [if current_chunk: chunks.append(...)]. *)
Definition flush (st : LoopState) : list QueryChunk :=
  match current_chunk st with
  | [] => loop_chunks st
  | _ => loop_chunks st
         ++ [{| chunk_index := loop_chunk_index st; rows := current_chunk st |}]
  end.

(** The part of [execute_query] after the submission. *)
Definition collect (row_chunk_size max_rows : Z) (query_job : QueryJob)
    (iterator : list IterItem) : Outcome QueryResult :=
  match stream_rows row_chunk_size max_rows iterator loop_start with
  | Raise e => Raise e
  | Return st =>
      let row_count := loop_row_count st in
      let truncated :=
        match total_rows query_job with
        | Some total => row_count <? total
        | None => false
        end in
      Return {| result_job_id := job_id query_job;
                statement_type := job_statement_type query_job;
                row_count := row_count;
                chunks := flush st;
                cache_hit := job_cache_hit query_job;
                bytes_processed := total_bytes_processed query_job;
                slot_millis := job_slot_millis query_job;
                truncated := truncated |}
  end.

Definition lift {A} (r : Outcome A) : M A := fun _ w => (r, w).

Definition execute_query (sql_query : pystr) (max_rows : Z) : M QueryResult :=
  client <- _require_client ;;
  s <- get_self ;;
  submitted <-
    try_except
      (submit client sql_query (_query_timeout_seconds s) (_row_chunk_size s))
      (fun exc =>
         if is_google_api_call_error exc then
           _maybe_refresh_on_auth_error exc ;;
           raise (QueryExecutionError
                    (str "Failed to execute query: " ++ exc_message exc))
         else raise exc) ;;
  let '(query_job, iterator) := submitted in
  s <- get_self ;;
  lift (collect (_row_chunk_size s) max_rows query_job iterator).

(** [BigQueryService(...)] before the [refresh_client] call that ends
    [__init__]. *)
Definition new_service (default_project : option pystr)
    (query_timeout_seconds row_chunk_size : Z) : World :=
  {| self := {| _default_project := default_project;
                _query_timeout_seconds := query_timeout_seconds;
                _row_chunk_size := row_chunk_size;
                _client := None;
                _credentials_info := None |};
     loader_calls := 0; queries := 0; clients := 0; trace := [] |}.

(** The public calls a caller can make on a service object. *)
Inductive Call :=
| CallRefresh
| CallClose
| CallSchema (dataset_id table_name : pystr)
| CallQuery (sql_query : pystr) (max_rows : Z).

Definition run_call (c : Call) (env : Env) (w : World) : World :=
  match c with
  | CallRefresh => snd (refresh_client env w)
  | CallClose => snd (close env w)
  | CallSchema d t => snd (get_table_schema d t env w)
  | CallQuery q m => snd (execute_query q m env w)
  end.

Definition run_calls (cs : list Call) (env : Env) (w : World) : World :=
  fold_left (fun w c => run_call c env w) cs w.

End Service.

(* ------------------------------------------------------------------ *)
(** ** config.py *)
(* ------------------------------------------------------------------ *)

Module Config.

Record AppConfig := {
  aws_region : pystr;
  secret_name : pystr;
  bigquery_project : option pystr;
  log_level : pystr;
  secrets_endpoint_url : option pystr;
  query_timeout_seconds : Z;
  default_max_rows : Z;
  row_chunk_size : Z
}.

(** [int_of] is Python's [int(value)], [None] where it raises
    [ValueError]. *)
Definition _parse_int (int_of : pystr -> option Z) (value : option pystr)
    (default : Z) (name : pystr) : Outcome Z :=
  match value with
  | None => Return default
  | Some v =>
      match int_of v with
      | None =>
          Raise (ConfigurationError
                   (str "Environment variable " ++ name ++ str " must be an integer"))
      | Some parsed =>
          if parsed <=? 0 then
            Raise (ConfigurationError (name ++ str " must be greater than zero"))
          else Return parsed
      end
  end.

Definition VALID_LOG_LEVELS : list pystr :=
  [str "DEBUG"; str "INFO"; str "WARNING"; str "ERROR"; str "CRITICAL"].

(** What [load_config] reads of the process: the environment once
    [load_dotenv()] has run, and the builtins [str.upper] and [int]
    ([None] where [int] raises [ValueError]). *)
Record Os := {
  getenv : pystr -> option pystr;
  upper : pystr -> pystr;
  int_of : pystr -> option Z
}.

(** [a or default] on an optional string. *)
Definition or_default (a : option pystr) (default : pystr) : pystr :=
  match a with
  | Some s => if truthy s then s else default
  | None => default
  end.

(** [not a] on an optional string. *)
Definition falsy (a : option pystr) : bool :=
  match a with
  | Some s => negb (truthy s)
  | None => true
  end.

Definition msg_log_level : pystr :=
  str "LOG_LEVEL must be one of ['CRITICAL', 'DEBUG', 'ERROR', 'INFO', 'WARNING']".

Definition load_config (os : Os) : Outcome AppConfig :=
  let aws_region := getenv os (str "AWS_REGION") in
  let secret_name := getenv os (str "SECRET_NAME") in
  let bigquery_project := getenv os (str "BIGQUERY_PROJECT") in
  let log_level := upper os (or_default (getenv os (str "LOG_LEVEL")) (str "INFO")) in
  let secrets_endpoint_url := getenv os (str "AWS_SECRETS_ENDPOINT") in
  if falsy aws_region then
    Raise (ConfigurationError (str "AWS_REGION is required for Secrets Manager access"))
  else if falsy secret_name then
    Raise (ConfigurationError (str "SECRET_NAME is required for Secrets Manager access"))
  else if negb (mem log_level VALID_LOG_LEVELS) then
    Raise (ConfigurationError msg_log_level)
  else
    match _parse_int (int_of os) (getenv os (str "QUERY_TIMEOUT_SECONDS")) 300
                     (str "QUERY_TIMEOUT_SECONDS") with
    | Raise e => Raise e
    | Return query_timeout_seconds =>
        match _parse_int (int_of os) (getenv os (str "DEFAULT_MAX_ROWS")) 10000
                         (str "DEFAULT_MAX_ROWS") with
        | Raise e => Raise e
        | Return default_max_rows =>
            match _parse_int (int_of os) (getenv os (str "ROW_CHUNK_SIZE")) 500
                             (str "ROW_CHUNK_SIZE") with
            | Raise e => Raise e
            | Return row_chunk_size =>
                Return {| aws_region := or_default aws_region [];
                          secret_name := or_default secret_name [];
                          bigquery_project := bigquery_project;
                          log_level := log_level;
                          secrets_endpoint_url := secrets_endpoint_url;
                          query_timeout_seconds := query_timeout_seconds;
                          default_max_rows := default_max_rows;
                          row_chunk_size := row_chunk_size |}
            end
        end
    end.

End Config.

(* ------------------------------------------------------------------ *)
(** ** utils.py *)
(* ------------------------------------------------------------------ *)

Module Utils.

Record ErrorPayload := {
  code : pystr;
  message : pystr;
  detail : option pystr
}.

(** The two shapes of a tool response: [{"request_id", "data"}] and
    [{"request_id", "error"}]. *)
Inductive Envelope (P : Type) :=
| Success (request_id : pystr) (data : P)
| Failure (request_id : pystr) (error : ErrorPayload).
Arguments Success {P} request_id data.
Arguments Failure {P} request_id error.

Definition success_response {P} (payload : P) (request_id : pystr) : Envelope P :=
  Success request_id payload.

Definition error_response {P} (request_id code message : pystr)
    (detail : option pystr) : Envelope P :=
  Failure request_id
    {| code := code; message := message;
       detail := match detail with
                 | Some d => if truthy d then Some d else None
                 | None => None
                 end |}.

End Utils.

(* ------------------------------------------------------------------ *)
(** ** server.py *)
(* ------------------------------------------------------------------ *)

Module Server.

Import Utils.

(** The module globals the tools read. *)
Record Globals := {
  CONFIG : option Config.AppConfig;
  BIGQUERY : option Service.World
}.

Record ChunkPayload := {
  chunk_index : Z;
  chunk_row_count : Z;
  rows : list Service.Row
}.

(** The [data] of a successful [execute_query]: the formatted result with
    the [sql] and [max_rows] keys added. *)
Record QueryPayload := {
  job_id : pystr;
  statement_type : option pystr;
  row_count : Z;
  chunks : list ChunkPayload;
  cache_hit : option bool;
  bytes_processed : option Z;
  slot_millis : option Z;
  truncated : bool;
  sql : pystr;
  max_rows : Z
}.

Definition _format_query_result (result : Service.QueryResult)
    (sql : pystr) (max_rows : Z) : QueryPayload :=
  {| job_id := Service.result_job_id result;
     statement_type := Service.statement_type result;
     row_count := Service.row_count result;
     chunks :=
       map (fun chunk =>
              {| chunk_index := Service.chunk_index chunk;
                 chunk_row_count := Z.of_nat (List.length (Service.rows chunk));
                 rows := Service.rows chunk |})
           (Service.chunks result);
     cache_hit := Service.cache_hit result;
     bytes_processed := Service.bytes_processed result;
     slot_millis := Service.slot_millis result;
     truncated := Service.truncated result;
     sql := sql;
     max_rows := max_rows |}.

Definition default_limit (g : Globals) : Z :=
  match CONFIG g with
  | Some config => Config.default_max_rows config
  | None => 10000
  end.

(** The first [try] block of the tool: validation and the row limit. *)
Definition prepare (g : Globals) (sql_query : pystr) (max_rows : option Z)
  : Outcome (pystr * Z) :=
  match validate_sql_query sql_query with
  | Raise e => Raise e
  | Return validated_sql =>
      let default_limit := default_limit g in
      let rows_limit :=
        match max_rows with
        | Some m => m
        | None => default_limit
        end in
      let rows_limit :=
        if rows_limit >? default_limit then default_limit else rows_limit in
      if rows_limit <=? 0 then
        Raise (QueryValidationError (str "max_rows must be greater than zero"))
      else Return (validated_sql, rows_limit)
  end.

(** [_require_service().execute_query(validated_sql, max_rows=rows_limit)]
    on the service object the global holds. *)
Definition call_service (env : Service.Env) (g : Globals)
    (validated_sql : pystr) (rows_limit : Z)
  : Outcome Service.QueryResult * Globals :=
  match BIGQUERY g with
  | None =>
      (Raise (QueryExecutionError (str "BigQuery service has not been initialized")), g)
  | Some service =>
      let '(r, service') := Service.execute_query validated_sql rows_limit env service in
      (r, {| CONFIG := CONFIG g; BIGQUERY := Some service' |})
  end.

Definition execute_query (env : Service.Env) (request_id sql_query : pystr)
    (max_rows : option Z) (g : Globals)
  : Outcome (Envelope QueryPayload) * Globals :=
  match prepare g sql_query max_rows with
  | Raise (QueryValidationError msg) =>
      (Return (error_response request_id (str "INVALID_SQL") msg None), g)
  | Raise e => (Raise e, g)
  | Return (validated_sql, rows_limit) =>
      match call_service env g validated_sql rows_limit with
      | (Raise (QueryExecutionError msg), g') =>
          (Return (error_response request_id (str "QUERY_FAILURE")
                     (str "BigQuery query failed") (Some msg)), g')
      | (Raise e, g') => (Raise e, g')
      | (Return result, g') =>
          let payload := _format_query_result result validated_sql rows_limit in
          (Return (success_response payload request_id), g')
      end
  end.

(** [str(exc)] for an exception of the server's own hierarchy
    ([MCPServerError]); [None] for a foreign exception. *)
Definition server_error_text (exc : Exn) : option pystr :=
  match exc with
  | ConfigurationError msg | CredentialRetrievalError msg
  | CredentialRefreshError msg | TableNotFoundError msg
  | QueryValidationError msg | QueryExecutionError msg => Some msg
  | GoogleAPICallError _ _ | NotFound _ | ForeignError _ => None
  end.

(** The [data] of a successful [get_table_schema]. *)
Record SchemaPayload := {
  schema : list Service.SchemaDict;
  dataset_id : pystr;
  table_name : pystr
}.

(** [_require_service().get_table_schema(dataset_id, table_name)] on the
    service object the global holds. *)
Definition call_schema_service (env : Service.Env) (g : Globals)
    (dataset_id table_name : pystr)
  : Outcome (list Service.SchemaDict) * Globals :=
  match BIGQUERY g with
  | None =>
      (Raise (QueryExecutionError (str "BigQuery service has not been initialized")), g)
  | Some service =>
      let '(r, service') :=
        Service.get_table_schema dataset_id table_name env service in
      (r, {| CONFIG := CONFIG g; BIGQUERY := Some service' |})
  end.

Definition get_table_schema (env : Service.Env)
    (request_id dataset_id table_name : pystr) (g : Globals)
  : Outcome (Envelope SchemaPayload) * Globals :=
  match call_schema_service env g dataset_id table_name with
  | (Raise (TableNotFoundError msg), g') =>
      (Return (error_response request_id (str "TABLE_NOT_FOUND") msg None), g')
  | (Raise exc, g') =>
      match server_error_text exc with
      | Some text =>
          (Return (error_response request_id (str "SCHEMA_ERROR")
                     (str "Unable to load schema") (Some text)), g')
      | None => (Raise exc, g')
      end
  | (Return schema, g') =>
      (Return (success_response
                 {| schema := schema; dataset_id := dataset_id;
                    table_name := table_name |} request_id), g')
  end.

End Server.

(* ------------------------------------------------------------------ *)
(** ** logging_config.py *)
(* ------------------------------------------------------------------ *)

Module LoggingConfig.

(** The part of a [LogRecord] the formatter reads: values are kept as
    text; [exc_info] is the formatted exception when there is one;
    [record_dict] is [record.__dict__] in its order. *)
Record LogRecord := {
  levelname : pystr;
  name : pystr;
  message : pystr;
  exc_info : option pystr;
  record_dict : list (pystr * pystr)
}.

Definition STANDARD_ATTRIBUTES : list pystr :=
  [str "args"; str "msg"; str "levelno"; str "pathname"; str "filename";
   str "lineno"; str "funcName"; str "created"; str "msecs";
   str "relativeCreated"; str "thread"; str "threadName"; str "processName";
   str "process"].

(** [key in payload]. *)
Definition has_key (key : pystr) (payload : list (pystr * pystr)) : bool :=
  mem key (map fst payload).

(** [key.startswith("_")]. *)
Definition is_private (key : pystr) : bool :=
  match key with
  | c :: _ => Ascii.eqb c "_"
  | [] => false
  end.

(** The [for key, value in record.__dict__.items()] loop. *)
Fixpoint add_custom (items payload : list (pystr * pystr)) : list (pystr * pystr) :=
  match items with
  | [] => payload
  | (key, value) :: rest =>
      if is_private key then add_custom rest payload
      else if has_key key payload then add_custom rest payload
      else if mem key STANDARD_ATTRIBUTES then add_custom rest payload
      else add_custom rest (payload ++ [(key, value)])
  end.

(** The dict [JsonFormatter.format] hands to [json.dumps], in insertion
    order; [timestamp] is the clock reading. *)
Definition format_payload (timestamp : pystr) (record : LogRecord)
  : list (pystr * pystr) :=
  let payload :=
    [(str "timestamp", timestamp); (str "level", levelname record);
     (str "logger", name record); (str "message", message record)] in
  let payload :=
    match exc_info record with
    | Some text => payload ++ [(str "exc_info", text)]
    | None => payload
    end in
  add_custom (record_dict record) payload.

End LoggingConfig.

(* ------------------------------------------------------------------ *)
(** ** Vocabulary of the statements *)
(* ------------------------------------------------------------------ *)

(** Only whitespace. *)
Definition all_space (s : pystr) : Prop := Forall (fun c => isspace c = true) s.

(** The first whitespace-delimited token of the trimmed input,
    lower-cased, as [validate_sql_query] computes it. *)
Definition first_token (sql_query : pystr) : option pystr :=
  split_first (lower (strip sql_query)).

(** A semicolon somewhere before the final character. *)
Definition semicolon_before_end (s : pystr) : Prop :=
  exists i, (S i < List.length s)%nat /\ nth_error s i = Some ";"%char.

(** The result as the specification words it: the trimmed input with a
    single trailing semicolon, if present, removed. *)
Definition spec_without_semicolon (sql_query : pystr) : pystr :=
  let t := strip sql_query in
  if endswith t ";" then drop_last t else t.

(** The rows an iterator hands out before it ends or raises. *)
Fixpoint yielded (iterator : list Service.IterItem) : list Service.Row :=
  match iterator with
  | Service.Yield row :: rest => row :: yielded rest
  | _ => []
  end.

(** [sum(len(chunk.rows) for chunk in chunks)]. *)
Definition sum_rows (chunks : list Service.QueryChunk) : Z :=
  fold_right (fun c acc => Z.of_nat (List.length (Service.rows c)) + acc) 0 chunks.

(** [ceil(n / c)] for a positive [c]. *)
Definition ceil_div (n c : Z) : Z := (n + c - 1) / c.

(** What the streaming loop maintains after it has consumed [seen]:
    the counters agree with the lists, every flushed chunk is full and
    numbered by its position, the open chunk is not full, and nothing is
    lost or reordered. *)
Record loop_inv (C : Z) (st : Service.LoopState) (seen : list Service.Row) : Prop := {
  inv_count : Service.loop_row_count st = Z.of_nat (List.length seen);
  inv_index : Service.loop_chunk_index st
              = Z.of_nat (List.length (Service.loop_chunks st));
  inv_full : forall i c, nth_error (Service.loop_chunks st) i = Some c ->
             Service.chunk_index c = Z.of_nat i
             /\ Z.of_nat (List.length (Service.rows c)) = C;
  inv_open : Z.of_nat (List.length (Service.current_chunk st)) < C;
  inv_rows : List.concat (map Service.rows (Service.loop_chunks st))
             ++ Service.current_chunk st = seen
}.

(** [cs] chunks the [N] rows [seen] by [C]: there are [ceil(N/C)] chunks,
    numbered by position from 0, all full except possibly the last, none
    empty, holding [N] rows in all, the rows of [seen] in order. *)
Record chunked (C N : Z) (cs : list Service.QueryChunk) (seen : list Service.Row)
  : Prop := {
  chunked_count : Z.of_nat (List.length cs) = ceil_div N C;
  chunked_index : forall i c, nth_error cs i = Some c ->
                  Service.chunk_index c = Z.of_nat i;
  chunked_full : forall i c, nth_error cs i = Some c ->
                 (S i < List.length cs)%nat ->
                 Z.of_nat (List.length (Service.rows c)) = C;
  chunked_size : forall i c, nth_error cs i = Some c ->
                 1 <= Z.of_nat (List.length (Service.rows c)) <= C;
  chunked_sum : sum_rows cs = N;
  chunked_rows : List.concat (map Service.rows cs) = seen
}.

(** A throttling-class error of the secret store. *)
Definition is_throttle (r : AwsSecrets.SecretResponse) : bool :=
  match r with
  | AwsSecrets.ClientError Code =>
      mem (match Code with Some c => c | None => [] end) AwsSecrets.THROTTLING
  | AwsSecrets.Response _ _ => false
  end.

(** What an attempt that is not retried makes of the store's answer. *)
Definition settle (boto : AwsSecrets.Boto) (secret_name : pystr)
    (r : AwsSecrets.SecretResponse) : Outcome Payload :=
  match r with
  | AwsSecrets.Response SecretString SecretBinary =>
      AwsSecrets.decode_response boto SecretString SecretBinary
  | AwsSecrets.ClientError Code =>
      Raise (CredentialRetrievalError
               (AwsSecrets.msg_unable secret_name
                  (match Code with Some c => c | None => [] end)))
  end.

(** The project a refresh settles on: the configured default, else the
    [project_id] of the payload. *)
Definition effective_project (default_project : option pystr) (info : Payload)
  : option pystr :=
  Service.py_or default_project (dict_get (str "project_id") info).

(** The service attributes after a client and its payload are installed. *)
Definition installed (s : Service.BigQueryService) (client : Service.Client)
    (info : Payload) : Service.BigQueryService :=
  {| Service._default_project := Service._default_project s;
     Service._query_timeout_seconds := Service._query_timeout_seconds s;
     Service._row_chunk_size := Service._row_chunk_size s;
     Service._client := Some client;
     Service._credentials_info := Some info |}.

(** The service attributes after the client is cleared. *)
Definition cleared (s : Service.BigQueryService) : Service.BigQueryService :=
  {| Service._default_project := Service._default_project s;
     Service._query_timeout_seconds := Service._query_timeout_seconds s;
     Service._row_chunk_size := Service._row_chunk_size s;
     Service._client := None;
     Service._credentials_info := Service._credentials_info s |}.

(** The events of closing the installed client, if there is one. *)
Definition close_events (s : Service.BigQueryService) : list Service.Event :=
  match Service._client s with
  | Some old => [Service.EvClose (Service.client_id old)]
  | None => []
  end.

(** The world with its attributes and counters set and [es] appended to
    its trace. *)
Definition world_after (w : Service.World) (s : Service.BigQueryService)
    (loads submissions built : nat) (es : list Service.Event) : Service.World :=
  {| Service.self := s;
     Service.loader_calls := loads + Service.loader_calls w;
     Service.queries := submissions + Service.queries w;
     Service.clients := built + Service.clients w;
     Service.trace := Service.trace w ++ es |}.

(** The handles closed so far, in order. *)
Fixpoint closed_handles (es : list Service.Event) : list nat :=
  match es with
  | Service.EvClose h :: rest => h :: closed_handles rest
  | _ :: rest => closed_handles rest
  | [] => []
  end.

(** What holds of every world a service can be in: no handle has been
    closed twice, every closed handle was built by this service, and the
    installed handle was built by it and has not been closed. *)
Record handles_ok (w : Service.World) : Prop := {
  ok_nodup : NoDup (closed_handles (Service.trace w));
  ok_built : forall h, In h (closed_handles (Service.trace w)) ->
             (h < Service.clients w)%nat;
  ok_live : forall c, Service._client (Service.self w) = Some c ->
            (Service.client_id c < Service.clients w)%nat
            /\ ~ In (Service.client_id c) (closed_handles (Service.trace w))
}.

(** The tool's answer once the service has been called with
    [rows_limit] and has answered [r]. *)
Definition answered (request_id validated_sql : pystr) (rows_limit : Z)
    (r : Outcome Service.QueryResult)
  : Outcome (Utils.Envelope Server.QueryPayload) :=
  match r with
  | Return result =>
      Return (Utils.Success request_id
                (Server._format_query_result result validated_sql rows_limit))
  | Raise (QueryExecutionError msg) =>
      Return (Utils.error_response request_id (str "QUERY_FAILURE")
                (str "BigQuery query failed") (Some msg))
  | Raise e => Raise e
  end.


(** Every handle the service has built is closed or is the one
    installed. *)
Definition accounted (w : Service.World) : Prop :=
  forall h, (h < Service.clients w)%nat ->
    In h (closed_handles (Service.trace w))
    \/ exists c, Service._client (Service.self w) = Some c
                 /\ Service.client_id c = h.

(** An iterator that hands out [rows] and ends. *)
Definition clean (rows : list Service.Row) : list Service.IterItem :=
  map Service.Yield rows.

(** The rows a query payload announces chunk by chunk, summed. *)
Definition sum_chunk_rows (chunks : list Server.ChunkPayload) : Z :=
  fold_right (fun c acc => Server.chunk_row_count c + acc) 0 chunks.

(* ------------------------------------------------------------------ *)
(** ** Sample collaborators, for the concrete runs below *)
(* ------------------------------------------------------------------ *)

Module Sample.

Import Service.

Definition payload : Payload :=
  [(str "client_email", str "svc@example.iam"); (str "project_id", str "proj")].

(** A payload without a project. *)
Definition bare_payload : Payload := [(str "client_email", str "svc@example.iam")].

Definition row (n : nat) : Row := [(str "n", [ascii_of_nat (48 + n)])].

Definition job : QueryJob :=
  {| job_id := str "job-1"; job_statement_type := Some (str "SELECT");
     total_rows := Some 5; job_cache_hit := Some false;
     total_bytes_processed := Some 1024; job_slot_millis := None |}.

(** A warehouse that answers every query with five rows, a loader that
    always finds the same payload. *)
Definition env : Env :=
  {| credential_loader := fun _ => Return payload;
     from_service_account_info := fun _ => true;
     client_query := fun _ _ _ => Submitted job (map Yield (map row (seq 0 5)));
     client_get_table := fun _ _ => LookupRaise (NotFound (str "no such table")) |}.

(** A service with chunk size 2, after its constructor has run. *)
Definition world : World := snd (refresh_client env (new_service None 300 2)).

Definition result : QueryResult :=
  {| result_job_id := str "job-1"; statement_type := Some (str "SELECT");
     row_count := 3;
     chunks := [ {| chunk_index := 0; rows := [row 0; row 1] |};
                 {| chunk_index := 1; rows := [row 2] |} ];
     cache_hit := Some false; bytes_processed := Some 1024; slot_millis := None;
     truncated := true |}.

(** A loader that finds the payload once and fails from then on. *)
Definition flaky_env : Env :=
  {| credential_loader := fun n =>
       match n with
       | 0%nat => Return payload
       | _ => Raise (ForeignError "ClientError")
       end;
     from_service_account_info := fun _ => true;
     client_query := fun _ _ _ =>
       SubmitRaise (GoogleAPICallError (str "denied") (Some 403));
     client_get_table := fun _ _ =>
       LookupRaise (NotFound (str "no such table")) |}.

(** A loader that finds a payload with a project once, and the payload
    without its project from then on; the warehouse rejects the
    credentials of every query. *)
Definition rotated_env : Env :=
  {| credential_loader := fun n =>
       match n with
       | 0%nat => Return payload
       | _ => Return bare_payload
       end;
     from_service_account_info := fun _ => true;
     client_query := fun _ _ _ =>
       SubmitRaise (GoogleAPICallError (str "unauthorized") (Some 401));
     client_get_table := fun _ _ =>
       LookupRaise (NotFound (str "no such table")) |}.

(** A store that throttles the first two calls and then hands out a
    secret string. *)
Definition boto : AwsSecrets.Boto :=
  {| AwsSecrets.get_secret_value := fun n _ =>
       match n with
       | 0%nat => AwsSecrets.ClientError (Some (str "ThrottlingException"))
       | 1%nat => AwsSecrets.ClientError (Some (str "TooManyRequestsException"))
       | _ => AwsSecrets.Response (Some (str "{...}")) None
       end;
     AwsSecrets.b64decode_utf8 := fun b => Some b;
     AwsSecrets.json_loads := fun _ => Some (AwsSecrets.JsonDict payload) |}.

(** Globals of a running server: a limit of 4 rows and the sample
    service. *)
Definition globals : Server.Globals :=
  {| Server.CONFIG :=
       Some {| Config.aws_region := str "eu-west-1";
               Config.secret_name := str "gcp-sa";
               Config.bigquery_project := None;
               Config.log_level := str "INFO";
               Config.secrets_endpoint_url := None;
               Config.query_timeout_seconds := 300;
               Config.default_max_rows := 4;
               Config.row_chunk_size := 2 |};
     Server.BIGQUERY := Some world |}.


(** A warehouse whose iterator hands out two rows and then fails with
    status 401; the loader works. *)
Definition broken_stream_env : Env :=
  {| credential_loader := fun _ => Return payload;
     from_service_account_info := fun _ => true;
     client_query := fun _ _ _ =>
       Submitted job [Yield (row 0); Yield (row 1);
                      IterRaise (GoogleAPICallError (str "expired") (Some 401));
                      Yield (row 2)];
     client_get_table := fun _ _ => LookupRaise (NotFound (str "no such table")) |}.

(** A warehouse that rejects every query with status 403 and knows one
    table; the loader works. *)
Definition expired_env : Env :=
  {| credential_loader := fun _ => Return payload;
     from_service_account_info := fun _ => true;
     client_query := fun _ _ _ =>
       SubmitRaise (GoogleAPICallError (str "forbidden") (Some 403));
     client_get_table := fun _ table_ref =>
       if PyStr.eq_dec table_ref (str "proj.sales.orders") then
         Table [Field (str "id") (str "INTEGER") (str "REQUIRED") None [];
                Field (str "items") (str "RECORD") (str "REPEATED") None
                      [Field (str "sku") (str "STRING") (str "NULLABLE") None []]]
       else LookupRaise (NotFound (str "no such table")) |}.

(** A process environment with the two required settings, a lower-case
    log level and a chunk size; [upper] and [int_of] answer for the
    strings that occur in it. *)
Definition os : Config.Os :=
  {| Config.getenv := fun key =>
       if PyStr.eq_dec key (str "AWS_REGION") then Some (str "eu-west-1")
       else if PyStr.eq_dec key (str "SECRET_NAME") then Some (str "gcp-sa")
       else if PyStr.eq_dec key (str "LOG_LEVEL") then Some (str "debug")
       else if PyStr.eq_dec key (str "ROW_CHUNK_SIZE") then Some (str "250")
       else None;
     Config.upper := fun s =>
       if PyStr.eq_dec s (str "debug") then str "DEBUG" else s;
     Config.int_of := fun v =>
       if PyStr.eq_dec v (str "250") then Some 250 else None |}.

(** The same environment with a chunk size of zero. *)
Definition bad_os : Config.Os :=
  {| Config.getenv := fun key =>
       if PyStr.eq_dec key (str "ROW_CHUNK_SIZE") then Some (str "0")
       else Config.getenv os key;
     Config.upper := Config.upper os;
     Config.int_of := fun v =>
       if PyStr.eq_dec v (str "0") then Some 0 else None |}.

(** A log record with an attribute passed as [extra], a private one and
    one that tries to replace the message. *)
Definition log_record : LoggingConfig.LogRecord :=
  {| LoggingConfig.levelname := str "INFO";
     LoggingConfig.name := str "bigquery_mcp";
     LoggingConfig.message := str "Query completed";
     LoggingConfig.exc_info := None;
     LoggingConfig.record_dict :=
       [(str "name", str "bigquery_mcp"); (str "msg", str "Query completed");
        (str "levelno", str "20"); (str "_private", str "x");
        (str "message", str "spoofed"); (str "request_id", str "req-1")] |}.

End Sample.

(* ------------------------------------------------------------------ *)
(** * Properties *)
(* ------------------------------------------------------------------ *)

(** ** Strings *)

Section StringFacts.

Implicit Types s t : pystr.

Lemma lstrip_split s : exists ws, all_space ws /\ s = ws ++ lstrip s.
Proof.
  induction s as [|c r IH]; simpl.
  - exists []. split; [constructor | reflexivity].
  - destruct (isspace c) eqn:E.
    + destruct IH as (ws & Hws & Heq). exists (c :: ws). split.
      * constructor; assumption.
      * simpl. now rewrite <- Heq.
    + exists []. split; [constructor | reflexivity].
Qed.

Lemma lstrip_head s c r : lstrip s = c :: r -> isspace c = false.
Proof.
  induction s as [|d u IH]; simpl; [discriminate|].
  destruct (isspace d) eqn:E; [exact IH|].
  intros H. inversion H. now subst.
Qed.

Lemma lstrip_fixed s c r : s = c :: r -> isspace c = false -> lstrip s = s.
Proof. intros -> H. simpl. now rewrite H. Qed.

Lemma lstrip_idem s : lstrip (lstrip s) = lstrip s.
Proof.
  destruct (lstrip s) as [|c r] eqn:E; [reflexivity|].
  eapply lstrip_fixed; [reflexivity | eapply lstrip_head; eassumption].
Qed.

Lemma lstrip_snoc s c : isspace c = false -> lstrip (s ++ [c]) = lstrip s ++ [c].
Proof.
  intros H. induction s as [|d u IH]; simpl.
  - now rewrite H.
  - destruct (isspace d); [exact IH | reflexivity].
Qed.

Lemma rstrip_split s : exists ws, all_space ws /\ s = rstrip s ++ ws.
Proof.
  unfold rstrip. destruct (lstrip_split (rev s)) as (ws & Hws & Heq).
  exists (rev ws). split.
  - apply Forall_rev. exact Hws.
  - rewrite <- rev_app_distr, <- Heq. now rewrite rev_involutive.
Qed.

Lemma rstrip_cons s c : isspace c = false -> rstrip (c :: s) = c :: rstrip s.
Proof.
  intros H. unfold rstrip. simpl. rewrite lstrip_snoc by exact H.
  now rewrite rev_app_distr.
Qed.

Lemma rstrip_idem s : rstrip (rstrip s) = rstrip s.
Proof. unfold rstrip. now rewrite rev_involutive, lstrip_idem. Qed.

(** A string that does not start with whitespace is only stripped on the
    right. *)
Lemma strip_no_lead s : lstrip s = s -> strip s = rstrip s.
Proof. unfold strip. now intros ->. Qed.

Lemma lstrip_rstrip s : lstrip s = s -> lstrip (rstrip s) = rstrip s.
Proof.
  destruct s as [|c r]; [reflexivity|].
  intros H. assert (Hc : isspace c = false) by (eapply lstrip_head; exact H).
  rewrite rstrip_cons by exact Hc. simpl. now rewrite Hc.
Qed.

Lemma strip_lstrip s : lstrip (strip s) = strip s.
Proof. unfold strip. apply lstrip_rstrip, lstrip_idem. Qed.

Lemma strip_idem s : strip (strip s) = strip s.
Proof.
  rewrite (strip_no_lead (strip s)) by apply strip_lstrip.
  unfold strip. apply rstrip_idem.
Qed.

Lemma lower_nil s : lower s = [] -> s = [].
Proof. destruct s; [reflexivity | discriminate]. Qed.

Lemma split_first_some s tok : split_first s = Some tok -> s <> [].
Proof. intros H ->. discriminate. Qed.

Lemma mem_In x xs : mem x xs = true <-> In x xs.
Proof. unfold mem. destruct (in_dec PyStr.eq_dec x xs); split; intros; easy. Qed.

Lemma mem_not_In x xs : mem x xs = false <-> ~ In x xs.
Proof. unfold mem. destruct (in_dec PyStr.eq_dec x xs); split; intros; easy. Qed.

Lemma contains_In c s : contains c s = true <-> In c s.
Proof.
  unfold contains. rewrite existsb_exists. split.
  - intros (d & Hd & E). apply Ascii.eqb_eq in E. now subst.
  - intros H. exists c. split; [exact H | apply Ascii.eqb_refl].
Qed.

(** [";" in s[:-1]] says that the character occurs before the last
    position. *)
Lemma contains_drop_last c s :
  contains c (drop_last s) = true
  <-> exists i, (S i < List.length s)%nat /\ nth_error s i = Some c.
Proof.
  rewrite contains_In. unfold drop_last.
  destruct s as [|z body _] using rev_ind.
  - simpl. split; [tauto|]. intros (i & Hi & _). simpl in Hi. lia.
  - rewrite removelast_last, length_app. simpl. split.
    + intros H. apply In_nth_error in H. destruct H as (i & Hi).
      exists i. split.
      * assert (i < List.length body)%nat by (apply nth_error_Some; congruence).
        lia.
      * rewrite nth_error_app1; [exact Hi|]. apply nth_error_Some. congruence.
    + intros (i & Hi & Hn). rewrite nth_error_app1 in Hn by lia.
      eapply nth_error_In. exact Hn.
Qed.

Lemma endswith_last s c : endswith s c = true <-> exists body, s = body ++ [c].
Proof.
  unfold endswith. split.
  - destruct (rev s) as [|d r] eqn:E; [discriminate|].
    intros H. apply Ascii.eqb_eq in H. subst d.
    exists (rev r). rewrite <- (rev_involutive s), E. reflexivity.
  - intros (body & ->). rewrite rev_app_distr. simpl. apply Ascii.eqb_refl.
Qed.

End StringFacts.

(** ** validators.py *)

Section ValidatorFacts.

Implicit Types sql tok : pystr.

Lemma first_token_nonblank sql tok :
  first_token sql = Some tok -> sql <> [] /\ strip sql <> [].
Proof.
  unfold first_token. intros H.
  assert (Hs : strip sql <> []).
  { intros E. rewrite E in H. discriminate. }
  split; [|exact Hs]. intros ->. now apply Hs.
Qed.

(** Blank input is rejected before any token is looked at. *)
Lemma validate_blank sql :
  strip sql = [] ->
  validate_sql_query sql = Raise (QueryValidationError msg_empty).
Proof.
  intros H. unfold validate_sql_query. rewrite H. simpl.
  now rewrite orb_true_r.
Qed.

(** The validator after its emptiness test, on an input with a token. *)
Lemma validate_unfold sql tok :
  first_token sql = Some tok ->
  validate_sql_query sql =
    if mem tok PROHIBITED_PREFIXES then Raise (QueryValidationError msg_read_only)
    else if negb (mem tok READ_ONLY_PREFIXES) then
      Raise (QueryValidationError msg_must_start)
    else if contains ";" (drop_last (strip sql)) then
      Raise (QueryValidationError msg_multiple)
    else Return (strip (if endswith (strip sql) ";" then drop_last (strip sql)
                        else strip sql)).
Proof.
  intros H. destruct (first_token_nonblank _ _ H) as (H1 & H2).
  unfold validate_sql_query.
  destruct sql as [|c r]; [now elim H1|].
  destruct (strip (c :: r)) as [|d u] eqn:E; [now elim H2|].
  unfold first_token in H. rewrite E in H. simpl truthy. simpl negb. simpl orb.
  cbv iota. now rewrite H.
Qed.

(** C3: on an input with a first token (the trimmed input, lower-cased,
    split at whitespace), a token in the prohibited set makes
    [validate_sql_query] fail with the read-only message, whether or not it
    is also in the allowed set; a token in neither set makes it fail with
    the "must start with" message. *)
Theorem validate_prefix_checks sql tok :
  sql <> [] ->
  first_token sql = Some tok ->
  (In tok PROHIBITED_PREFIXES ->
   validate_sql_query sql = Raise (QueryValidationError msg_read_only))
  /\ (~ In tok PROHIBITED_PREFIXES -> ~ In tok READ_ONLY_PREFIXES ->
      validate_sql_query sql = Raise (QueryValidationError msg_must_start)).
Proof.
  intros _ H. rewrite (validate_unfold _ _ H). split.
  - intros Hin. apply mem_In in Hin. now rewrite Hin.
  - intros Hp Ha. apply mem_not_In in Hp, Ha. now rewrite Hp, Ha.
Qed.

Lemma validate_prefix_checks_witness :
  validate_sql_query (str "DELETE FROM t")
  = Raise (QueryValidationError msg_read_only)
  /\ validate_sql_query (str "show tables")
     = Raise (QueryValidationError msg_must_start).
Proof.
  split.
  - apply (validate_prefix_checks (str "DELETE FROM t") (str "delete")).
    + discriminate.
    + reflexivity.
    + simpl. tauto.
  - apply (validate_prefix_checks (str "show tables") (str "show")).
    + discriminate.
    + reflexivity.
    + simpl. intros H. repeat (destruct H as [H|H]; [discriminate H|]). exact H.
    + simpl. intros H. repeat (destruct H as [H|H]; [discriminate H|]). exact H.
Defined.

Lemma allowed_not_prohibited tok :
  In tok READ_ONLY_PREFIXES -> mem tok PROHIBITED_PREFIXES = false.
Proof.
  simpl. intros [<- | [<- | [<- | []]]]; reflexivity.
Qed.

Lemma lstrip_removelast (t : pystr) :
  lstrip t = t -> lstrip (removelast t) = removelast t.
Proof.
  destruct t as [|c r]; [reflexivity|]. intros H.
  assert (Hc : isspace c = false) by (eapply lstrip_head; exact H).
  destruct r; simpl; [reflexivity | now rewrite Hc].
Qed.

(** C4, as stated, fails: whitespace left in front of the removed
    semicolon is stripped too. *)
Lemma validate_result_counterexample :
  ~ (forall sql tok,
        first_token sql = Some tok -> In tok READ_ONLY_PREFIXES ->
        ~ semicolon_before_end (strip sql) ->
        validate_sql_query sql = Return (spec_without_semicolon sql)).
Proof.
  intros H. specialize (H (str "select 1 ;") (str "select")).
  assert (E : validate_sql_query (str "select 1 ;")
              = Return (spec_without_semicolon (str "select 1 ;"))).
  { apply H.
    - reflexivity.
    - simpl. tauto.
    - intros Hs. apply contains_drop_last in Hs. discriminate Hs. }
  discriminate E.
Qed.

(** C4, amended: on an input that passes the prefix checks, a semicolon
    before the final character of the trimmed input makes
    [validate_sql_query] fail with the multi-statement message; otherwise it
    returns the trimmed input unchanged when that does not end in a
    semicolon, and else the trimmed input without its final semicolon and
    without the whitespace in front of it; the result has no whitespace at
    either end and every character kept is unchanged. *)
Theorem validate_statement_checks sql tok :
  first_token sql = Some tok ->
  In tok READ_ONLY_PREFIXES ->
  (semicolon_before_end (strip sql) ->
   validate_sql_query sql = Raise (QueryValidationError msg_multiple))
  /\ (~ semicolon_before_end (strip sql) ->
      exists r ws,
        validate_sql_query sql = Return r /\ all_space ws /\ strip r = r
        /\ ((endswith (strip sql) ";" = false /\ strip sql = r)
            \/ strip sql = r ++ ws ++ [";"%char])).
Proof.
  intros Htok Hin. rewrite (validate_unfold _ _ Htok).
  rewrite (allowed_not_prohibited _ Hin).
  apply mem_In in Hin. rewrite Hin. simpl negb. cbv iota. split.
  - intros Hs. apply contains_drop_last in Hs. now rewrite Hs.
  - intros Hs.
    destruct (contains ";" (drop_last (strip sql))) eqn:Ec.
    { elim Hs. now apply contains_drop_last. }
    destruct (endswith (strip sql) ";") eqn:Ee.
    + destruct (proj1 (endswith_last _ _) Ee) as (body & Hb).
      assert (Hl : lstrip (drop_last (strip sql)) = drop_last (strip sql)).
      { apply lstrip_removelast, strip_lstrip. }
      unfold drop_last in *. rewrite Hb in *. rewrite removelast_last in *.
      destruct (rstrip_split body) as (ws & Hws & Hsplit).
      exists (strip body), ws. repeat split.
      * exact Hws.
      * apply strip_idem.
      * right. rewrite (strip_no_lead _ Hl), app_assoc.
        now rewrite <- Hsplit.
    + exists (strip sql), []. repeat split.
      * now rewrite strip_idem.
      * constructor.
      * apply strip_idem.
      * now left.
Qed.

Lemma validate_statement_checks_witness :
  (exists r ws,
      validate_sql_query (str "SELECT 1 ;") = Return r /\ all_space ws
      /\ strip r = r
      /\ ((endswith (strip (str "SELECT 1 ;")) ";" = false
           /\ strip (str "SELECT 1 ;") = r)
          \/ strip (str "SELECT 1 ;") = r ++ ws ++ [";"%char]))
  /\ validate_sql_query (str "SELECT 1; SELECT 2")
     = Raise (QueryValidationError msg_multiple).
Proof.
  split.
  - apply (validate_statement_checks (str "SELECT 1 ;") (str "select")).
    + reflexivity.
    + simpl. tauto.
    + intros Hs. apply contains_drop_last in Hs. discriminate Hs.
  - apply (validate_statement_checks (str "SELECT 1; SELECT 2") (str "select")).
    + reflexivity.
    + simpl. tauto.
    + exists 8%nat. split; [simpl; lia | reflexivity].
Defined.

(** The two examples of the specification. *)
Example validate_select_1 :
  validate_sql_query (str "SELECT 1;") = Return (str "SELECT 1").
Proof. reflexivity. Qed.

Example validate_two_statements :
  validate_sql_query (str "SELECT 1; SELECT 2")
  = Raise (QueryValidationError msg_multiple).
Proof. reflexivity. Qed.

Example validate_blank_examples :
  validate_sql_query [] = Raise (QueryValidationError msg_empty)
  /\ validate_sql_query (str "   ") = Raise (QueryValidationError msg_empty).
Proof. split; reflexivity. Qed.

End ValidatorFacts.

(** ** bigquery_service.py: the streaming loop *)

Section Chunking.

Import Service.

Variable C : Z.
Hypothesis C_pos : 0 < C.

Lemma sum_rows_app a b : sum_rows (a ++ b) = sum_rows a + sum_rows b.
Proof. induction a as [|c a IH]; simpl; [reflexivity | rewrite IH; lia]. Qed.

Lemma sum_rows_concat cs :
  sum_rows cs = Z.of_nat (List.length (List.concat (map rows cs))).
Proof.
  induction cs as [|c cs IH]; simpl; [reflexivity|].
  rewrite length_app, IH. lia.
Qed.

Lemma sum_rows_full cs :
  (forall i c, nth_error cs i = Some c -> Z.of_nat (List.length (rows c)) = C) ->
  sum_rows cs = C * Z.of_nat (List.length cs).
Proof.
  induction cs as [|c cs IH]; intros H; simpl; [lia|].
  rewrite IH.
  - rewrite (H 0%nat c eq_refl). lia.
  - intros i d Hd. exact (H (S i) d Hd).
Qed.

Lemma loop_start_inv : loop_inv C loop_start [].
Proof.
  constructor; simpl; try reflexivity; try lia.
  intros [|i] c H; discriminate H.
Qed.

Lemma loop_body_inv st seen row :
  loop_inv C st seen -> loop_inv C (loop_body C row st) (seen ++ [row]).
Proof.
  intros [Hc Hi Hf Ho Hr]. unfold loop_body.
  assert (Hlen : Z.of_nat (List.length (current_chunk st ++ [row]))
                 = Z.of_nat (List.length (current_chunk st)) + 1).
  { rewrite length_app. simpl. lia. }
  destruct (Z.geb_spec (Z.of_nat (List.length (current_chunk st ++ [row]))) C)
    as [Hge | Hlt].
  - constructor; simpl.
    + rewrite length_app. simpl. lia.
    + rewrite length_app. simpl. lia.
    + intros i c Hn.
      destruct (Nat.lt_ge_cases i (List.length (loop_chunks st))) as [Hin | Hout].
      * rewrite nth_error_app1 in Hn by exact Hin. now apply Hf.
      * rewrite nth_error_app2 in Hn by exact Hout.
        destruct (i - List.length (loop_chunks st))%nat as [|j] eqn:Ej.
        -- simpl in Hn. inversion Hn. subst c. simpl. split; lia.
        -- destruct j; discriminate Hn.
    + exact C_pos.
    + rewrite map_app, List.concat_app. simpl. rewrite !app_nil_r, <- Hr.
      now rewrite app_assoc.
  - constructor; simpl.
    + rewrite length_app. simpl. lia.
    + exact Hi.
    + exact Hf.
    + lia.
    + rewrite <- Hr. now rewrite app_assoc.
Qed.

(** The loop only ever hands back a state that satisfies the invariant
    for a prefix of what the iterator yields. *)
Lemma stream_rows_inv max_rows iterator :
  forall st seen st',
    loop_inv C st seen ->
    stream_rows C max_rows iterator st = Return st' ->
    exists k, loop_inv C st' (seen ++ firstn k (yielded iterator)).
Proof.
  induction iterator as [|item rest IH]; intros st seen st' Hinv Hrun; simpl in Hrun.
  - inversion Hrun. subst st'. exists 0%nat. simpl. now rewrite app_nil_r.
  - destruct item as [row | exc].
    + pose proof (loop_body_inv st seen row Hinv) as Hstep.
      destruct (loop_row_count (loop_body C row st) >=? max_rows).
      * inversion Hrun. subst st'. exists 1%nat. exact Hstep.
      * destruct (IH _ _ _ Hstep Hrun) as (k & Hk).
        exists (S k). simpl. now rewrite <- app_assoc in Hk.
    + destruct (is_google_api_call_error exc); discriminate Hrun.
Qed.

(** The number of rows consumed never exceeds a positive limit. *)
Lemma stream_rows_limit max_rows iterator :
  forall st st',
    loop_row_count st < max_rows ->
    stream_rows C max_rows iterator st = Return st' ->
    loop_row_count st' <= max_rows.
Proof.
  induction iterator as [|item rest IH]; intros st st' Hlt Hrun; simpl in Hrun.
  - inversion Hrun. subst. lia.
  - destruct item as [row | exc].
    + assert (Hc : loop_row_count (loop_body C row st) = loop_row_count st + 1).
      { unfold loop_body.
        destruct (Z.of_nat (List.length (current_chunk st ++ [row])) >=? C);
          reflexivity. }
      destruct (Z.geb_spec (loop_row_count (loop_body C row st)) max_rows) as [Hge | Hlt'].
      * inversion Hrun. subst st'. lia.
      * eapply IH; [|exact Hrun]. exact Hlt'.
    + destruct (is_google_api_call_error exc); discriminate Hrun.
Qed.

Lemma ceil_div_exact k : ceil_div (C * k) C = k.
Proof.
  unfold ceil_div. symmetry. apply Z.div_unique with (r := C - 1); lia.
Qed.

Lemma ceil_div_partial k r : 0 < r < C -> ceil_div (C * k + r) C = k + 1.
Proof.
  intros Hr. unfold ceil_div. symmetry.
  apply Z.div_unique with (r := r - 1); lia.
Qed.

End Chunking.

Section ChunkedResult.

Import Service.

Lemma firstn_length_firstn {A} (k : nat) (l : list A) :
  firstn (List.length (firstn k l)) l = firstn k l.
Proof.
  revert l. induction k as [|k IH]; intros [|x l]; simpl; try reflexivity.
  now rewrite IH.
Qed.

Lemma flush_chunked C st seen :
  0 < C -> loop_inv C st seen ->
  chunked C (loop_row_count st) (flush st) seen.
Proof.
  intros HC [Hc Hi Hf Ho Hr].
  assert (Hsum : sum_rows (loop_chunks st)
                 = C * Z.of_nat (List.length (loop_chunks st))).
  { apply sum_rows_full. intros i c H. exact (proj2 (Hf i c H)). }
  assert (HN : loop_row_count st
               = C * Z.of_nat (List.length (loop_chunks st))
                 + Z.of_nat (List.length (current_chunk st))).
  { rewrite Hc, <- Hr, length_app, <- Hsum, sum_rows_concat. lia. }
  unfold flush. destruct (current_chunk st) as [|r0 cur] eqn:Ecur.
  - simpl in HN. rewrite app_nil_r in Hr. constructor.
    + rewrite HN, Z.add_0_r. symmetry. now apply ceil_div_exact.
    + intros i c H. exact (proj1 (Hf i c H)).
    + intros i c H _. exact (proj2 (Hf i c H)).
    + intros i c H. destruct (Hf i c H) as (_ & E). lia.
    + lia.
    + exact Hr.
  - set (lastc := {| chunk_index := loop_chunk_index st; rows := r0 :: cur |}).
    assert (Hcur : 0 < Z.of_nat (List.length (r0 :: cur)) < C) by (simpl in *; lia).
    assert (Hnth : forall i c, nth_error (loop_chunks st ++ [lastc]) i = Some c ->
                   (i < List.length (loop_chunks st))%nat
                   /\ nth_error (loop_chunks st) i = Some c
                   \/ i = List.length (loop_chunks st) /\ c = lastc).
    { intros i c H.
      destruct (Nat.lt_ge_cases i (List.length (loop_chunks st))) as [Hin | Hout].
      - left. rewrite nth_error_app1 in H by exact Hin. now split.
      - right. rewrite nth_error_app2 in H by exact Hout.
        destruct (i - List.length (loop_chunks st))%nat as [|j] eqn:Ej.
        + simpl in H. inversion H. split; [lia | reflexivity].
        + destruct j; discriminate H. }
    constructor.
    + rewrite length_app, HN, (ceil_div_partial C _ _ Hcur).
      simpl List.length. lia.
    + intros i c H. destruct (Hnth i c H) as [(_ & H') | (-> & ->)].
      * exact (proj1 (Hf i c H')).
      * simpl. exact Hi.
    + intros i c H Hlt. rewrite length_app in Hlt. simpl in Hlt.
      destruct (Hnth i c H) as [(_ & H') | (-> & _)]; [exact (proj2 (Hf i c H')) | lia].
    + intros i c H. destruct (Hnth i c H) as [(_ & H') | (_ & ->)].
      * destruct (Hf i c H') as (_ & E). lia.
      * simpl rows. lia.
    + rewrite sum_rows_app, Hsum, HN. simpl. lia.
    + rewrite map_app, List.concat_app. simpl. now rewrite app_nil_r.
Qed.

Lemma collect_chunked C max_rows job iterator result :
  0 < C ->
  collect C max_rows job iterator = Return result ->
  chunked C (row_count result) (chunks result)
          (firstn (Z.to_nat (row_count result)) (yielded iterator))
  /\ (1 <= max_rows -> row_count result <= max_rows).
Proof.
  intros HC Hrun. unfold collect in Hrun.
  destruct (stream_rows C max_rows iterator loop_start) as [st | e] eqn:Es;
    [|discriminate Hrun].
  inversion Hrun. subst result. clear Hrun. simpl.
  destruct (stream_rows_inv C HC _ _ _ _ _ (loop_start_inv C HC) Es) as (k & Hk).
  simpl in Hk. split.
  - replace (firstn (Z.to_nat (loop_row_count st)) (yielded iterator))
      with (firstn k (yielded iterator)).
    + now apply flush_chunked.
    + rewrite (inv_count _ _ _ Hk), Nat2Z.id. symmetry.
      apply firstn_length_firstn.
  - intros HM. eapply stream_rows_limit; [|exact Es]. simpl. lia.
Qed.

End ChunkedResult.

(** ** bigquery_service.py: [execute_query] *)

Section ExecuteQuery.

Import Service.

Lemma require_client_run env w :
  _require_client env w =
  let w1 := log EvRelease (log EvAcquire w) in
  match _client (self w) with
  | Some c => (Return c, w1)
  | None =>
      (Raise (QueryExecutionError (str "BigQuery client is not initialized")), w1)
  end.
Proof.
  unfold _require_client, with_lock, bind, get_self. simpl.
  destruct (_client (self w)); reflexivity.
Qed.

(** [execute_query], one step at a time. *)
Lemma execute_query_run env w sql max_rows :
  execute_query sql max_rows env w =
  let w1 := log EvRelease (log EvAcquire w) in
  match _client (self w) with
  | None =>
      (Raise (QueryExecutionError (str "BigQuery client is not initialized")), w1)
  | Some c =>
      let w2 := log (EvQuery (client_id c) sql (_query_timeout_seconds (self w))
                             (_row_chunk_size (self w)))
                    (query_submitted w1) in
      match client_query env (queries w) c sql with
      | Submitted job iterator =>
          (collect (_row_chunk_size (self w)) max_rows job iterator, w2)
      | SubmitRaise exc =>
          if is_google_api_call_error exc then
            match _maybe_refresh_on_auth_error exc env w2 with
            | (Return _, w3) =>
                (Raise (QueryExecutionError
                          (str "Failed to execute query: " ++ exc_message exc)), w3)
            | (Raise e, w3) => (Raise e, w3)
            end
          else (Raise exc, w2)
      end
  end.
Proof.
  unfold execute_query. unfold bind at 1. rewrite require_client_run.
  destruct (_client (self w)) as [c|]; [|reflexivity].
  cbv zeta. unfold bind at 1. unfold get_self at 1. cbv beta iota.
  unfold bind at 1. unfold try_except, submit. cbn [self log query_submitted queries].
  destruct (client_query env (queries w) c sql) as [job iterator | exc].
  - reflexivity.
  - destruct (is_google_api_call_error exc); [|reflexivity].
    unfold bind, raise.
    destruct (_maybe_refresh_on_auth_error exc env _) as [[u | e] w3]; reflexivity.
Qed.

(** A call that returns a result went through one submission, on the
    installed client, and collected the rows of its iterator. *)
Lemma execute_query_returns env w w' sql max_rows result :
  execute_query sql max_rows env w = (Return result, w') ->
  exists client job iterator,
    _client (self w) = Some client
    /\ client_query env (queries w) client sql = Submitted job iterator
    /\ collect (_row_chunk_size (self w)) max_rows job iterator = Return result.
Proof.
  rewrite execute_query_run. cbv zeta.
  destruct (_client (self w)) as [c|]; [|discriminate].
  destruct (client_query env (queries w) c sql) as [job iterator | exc] eqn:Eq.
  - intros H. inversion H. now exists c, job, iterator.
  - destruct (is_google_api_call_error exc); [|discriminate].
    destruct (_maybe_refresh_on_auth_error exc env _) as [[u | e] w3]; discriminate.
Qed.

(** C1: a query execution that returns [N = row_count] rows on a service
    with a positive chunk size [C] returns [ceil(N/C)] chunks (none when
    [N = 0]), numbered 0, 1, ... by position, every one but possibly the
    last with exactly [C] rows, none empty, with [N] rows in all: the first
    [N] rows of the iterator in order.  The row limit is arbitrary, so this
    covers the runs that stop in the middle of a chunk; with a limit of at
    least one, [N] does not exceed it. *)
Theorem execute_query_chunks env w w' sql max_rows result :
  0 < _row_chunk_size (self w) ->
  execute_query sql max_rows env w = (Return result, w') ->
  exists client job iterator,
    _client (self w) = Some client
    /\ client_query env (queries w) client sql = Submitted job iterator
    /\ chunked (_row_chunk_size (self w)) (row_count result) (chunks result)
               (firstn (Z.to_nat (row_count result)) (yielded iterator))
    /\ (1 <= max_rows -> row_count result <= max_rows).
Proof.
  intros HC Hrun.
  destruct (execute_query_returns _ _ _ _ _ _ Hrun) as (c & job & it & Hc & Hq & Hcol).
  destruct (collect_chunked _ _ _ _ _ HC Hcol) as (Hchunks & Hlimit).
  exists c, job, it. split; [exact Hc|]. split; [exact Hq|].
  split; [exact Hchunks | exact Hlimit].
Qed.

(** Five rows on offer, chunk size 2, limit 3: the run stops inside the
    second chunk, which is flushed with its single row. *)
Lemma execute_query_chunks_witness :
  exists client job iterator,
    _client (self Sample.world) = Some client
    /\ client_query Sample.env (queries Sample.world) client (str "select n")
       = Submitted job iterator
    /\ chunked 2 3 [ {| chunk_index := 0; rows := [Sample.row 0; Sample.row 1] |};
                     {| chunk_index := 1; rows := [Sample.row 2] |} ]
               (firstn 3 (yielded iterator))
    /\ (1 <= 3 -> 3 <= 3).
Proof.
  apply (execute_query_chunks Sample.env Sample.world
           (snd (execute_query (str "select n") 3 Sample.env Sample.world))
           (str "select n") 3 Sample.result).
  - reflexivity.
  - reflexivity.
Defined.

(** C2: the [truncated] flag of a returned result is set exactly when the
    warehouse reported a total and that total exceeds the number of rows
    returned; with no total, or a total equal to the rows returned, it is
    clear. *)
Theorem execute_query_truncated env w w' sql max_rows result :
  execute_query sql max_rows env w = (Return result, w') ->
  exists client job iterator,
    _client (self w) = Some client
    /\ client_query env (queries w) client sql = Submitted job iterator
    /\ (truncated result = true
        <-> exists total, total_rows job = Some total /\ row_count result < total)
    /\ (total_rows job = None -> truncated result = false)
    /\ (total_rows job = Some (row_count result) -> truncated result = false).
Proof.
  intros Hrun.
  destruct (execute_query_returns _ _ _ _ _ _ Hrun) as (c & job & it & Hc & Hq & Hcol).
  exists c, job, it. split; [exact Hc|]. split; [exact Hq|].
  unfold collect in Hcol.
  destruct (stream_rows _ max_rows it loop_start) as [st | e]; [|discriminate].
  inversion Hcol. subst result. clear Hcol. simpl.
  destruct (total_rows job) as [total|].
  - split; [|split].
    + rewrite Z.ltb_lt. split.
      * intros H. now exists total.
      * intros (t & Ht & Hlt). inversion Ht. now subst.
    + discriminate.
    + intros H. inversion H. apply Z.ltb_irrefl.
  - split; [|split].
    + split; [discriminate|]. intros (t & Ht & _). discriminate.
    + reflexivity.
    + discriminate.
Qed.

Lemma execute_query_truncated_witness :
  exists client job iterator,
    _client (self Sample.world) = Some client
    /\ client_query Sample.env (queries Sample.world) client (str "select n")
       = Submitted job iterator
    /\ (true = true <-> exists total, total_rows job = Some total /\ 3 < total)
    /\ (total_rows job = None -> true = false)
    /\ (total_rows job = Some 3 -> true = false).
Proof.
  apply (execute_query_truncated Sample.env Sample.world
           (snd (execute_query (str "select n") 3 Sample.env Sample.world))
           (str "select n") 3 Sample.result).
  reflexivity.
Defined.

End ExecuteQuery.

(** ** aws_secrets.py *)

Section Secrets.

Import AwsSecrets.

Variable boto : Boto.
Variable secret_name : pystr.

(** One attempt, by the kind of the store's answer. *)
Lemma fetch_loop_step attempt rest last_error w :
  fetch_loop boto secret_name (attempt :: rest) last_error w =
  let r := get_secret_value boto (calls w) secret_name in
  let w1 := emit (EvGetSecretValue secret_name)
              {| calls := S (calls w); trace := trace w |} in
  if is_throttle r && (attempt <? 2)%nat then
    fetch_loop boto secret_name rest (Some r) (emit (EvSleep (backoff attempt)) w1)
  else (settle boto secret_name r, w1).
Proof.
  simpl. destruct (get_secret_value boto (calls w) secret_name) as [ss sb | Code].
  - reflexivity.
  - simpl. destruct (mem _ THROTTLING && (attempt <? 2)%nat); reflexivity.
Qed.

Lemma backoff_values : backoff 0 == 1 # 2 /\ backoff 1 == 1.
Proof. split; reflexivity. Qed.

(** Closes the seven parts of the retry statement once the run has been
    computed in one of its three shapes. *)
Ltac settle_cases :=
  split; [lia|];
  split; [first [intros; congruence | intros; reflexivity]|];
  split; [first [intros; congruence | intros; reflexivity]|];
  split; [first [intros; congruence | intros; reflexivity]|];
  split; [exact backoff_values|];
  split;
  [ intros i Code Hr; rewrite Hr; eexists; reflexivity
  | intros i ss sb data Hr Hd; rewrite Hr; exact Hd ].

(** C5: [fetch_service_account] calls the store at most three times.  An
    answer that is not a throttling error settles the call at once: a
    response is decoded, any other remote error becomes a
    [CredentialRetrievalError], and nothing more is attempted.  A throttling
    error on attempt 0 or 1 is followed by a sleep of [0.5 * 2^attempt]
    seconds (0.5, then 1.0) and the next attempt; the third attempt settles
    the call whatever the answer, so throttling there fails too, and two
    throttled attempts followed by a decodable response return its
    payload. *)
Theorem fetch_service_account_retries w :
  let r i := get_secret_value boto (i + calls w) secret_name in
  let call := EvGetSecretValue secret_name in
  let run := fetch_service_account boto secret_name w in
  (calls (snd run) <= 3 + calls w)%nat
  /\ (is_throttle (r 0%nat) = false ->
      run = (settle boto secret_name (r 0%nat),
             {| calls := 1 + calls w; trace := trace w ++ [call] |}))
  /\ (is_throttle (r 0%nat) = true -> is_throttle (r 1%nat) = false ->
      run = (settle boto secret_name (r 1%nat),
             {| calls := 2 + calls w;
                trace := trace w ++ [call; EvSleep (backoff 0); call] |}))
  /\ (is_throttle (r 0%nat) = true -> is_throttle (r 1%nat) = true ->
      run = (settle boto secret_name (r 2%nat),
             {| calls := 3 + calls w;
                trace := trace w ++ [call; EvSleep (backoff 0); call;
                                     EvSleep (backoff 1); call] |}))
  /\ (backoff 0 == 1 # 2 /\ backoff 1 == 1)
  /\ (forall i Code, r i = ClientError Code ->
      exists msg, settle boto secret_name (r i) = Raise (CredentialRetrievalError msg))
  /\ (forall i SecretString SecretBinary data,
      r i = Response SecretString SecretBinary ->
      decode_response boto SecretString SecretBinary = Return data ->
      settle boto secret_name (r i) = Return data).
Proof.
  cbv zeta. unfold fetch_service_account.
  change (seq 0 3) with [0; 1; 2]%nat.
  do 3 (rewrite fetch_loop_step; cbv zeta).
  unfold emit. cbn [calls trace Nat.add Nat.ltb Nat.leb andb].
  rewrite !andb_true_r, andb_false_r, <- !app_assoc. cbn [app].
  destruct (is_throttle (get_secret_value boto (calls w) secret_name)) eqn:E0;
    [destruct (is_throttle (get_secret_value boto (S (calls w)) secret_name)) eqn:E1|];
    cbn [snd calls]; settle_cases.
Qed.

End Secrets.

(** Throttled twice, then served: the payload comes back after sleeps of
    0.5 s and 1.0 s and three calls. *)
Lemma fetch_service_account_retries_witness :
  AwsSecrets.fetch_service_account Sample.boto (str "gcp-sa")
    {| AwsSecrets.calls := 0; AwsSecrets.trace := [] |}
  = (Return Sample.payload,
     {| AwsSecrets.calls := 3;
        AwsSecrets.trace :=
          [AwsSecrets.EvGetSecretValue (str "gcp-sa");
           AwsSecrets.EvSleep (AwsSecrets.backoff 0);
           AwsSecrets.EvGetSecretValue (str "gcp-sa");
           AwsSecrets.EvSleep (AwsSecrets.backoff 1);
           AwsSecrets.EvGetSecretValue (str "gcp-sa")] |}).
Proof.
  exact (proj1 (proj2 (proj2 (proj2
           (fetch_service_account_retries Sample.boto (str "gcp-sa")
              {| AwsSecrets.calls := 0; AwsSecrets.trace := [] |}))))
           eq_refl eq_refl).
Defined.

(** ** bigquery_service.py: the client lifecycle *)

(** Normalises a world built by nested updates to [world_after]. *)
Ltac world_eq :=
  unfold world_after, Service.log, Service.with_self, Service.loader_called,
    Service.query_submitted, Service.client_built;
  cbn [Service.self Service.loader_calls Service.queries Service.clients
       Service.trace Nat.add];
  rewrite <- ?app_assoc; cbn [app]; rewrite ?app_nil_r;
  try reflexivity.

Section Lifecycle.

Import Service.

(** [refresh_client], by the answers of its collaborators. *)
Lemma refresh_client_run env w :
  refresh_client env w =
  let failed := world_after w (self w) 1 0 0 [EvLoadCredentials] in
  match credential_loader env (loader_calls w) with
  | Raise _ => (Raise (CredentialRefreshError msg_refresh), failed)
  | Return info =>
      match effective_project (_default_project (self w)) info with
      | Some project_name =>
          if truthy project_name then
            if from_service_account_info env info then
              let client := {| client_id := clients w; project := project_name;
                               credentials := info |} in
              (Return tt,
               world_after w (installed (self w) client info) 1 0 1
                 ([EvLoadCredentials; EvNewClient client; EvAcquire]
                  ++ close_events (self w)
                  ++ [EvSetClient (Some (clients w)); EvSetCredentialsInfo;
                      EvRelease]))
            else (Raise (ForeignError "ValueError"), failed)
          else (Raise (ConfigurationError msg_no_project), failed)
      | None => (Raise (ConfigurationError msg_no_project), failed)
      end
  end.
Proof.
  destruct w as [[dp tmo size oc oi] lc q cl tr].
  unfold refresh_client, effective_project, close_events.
  unfold bind at 1. unfold try_except, call_credential_loader.
  cbn [self loader_calls].
  destruct (credential_loader env lc) as [info | e].
  - unfold bind at 1. unfold get_self at 1. cbn [self log loader_called _default_project].
    destruct (py_or _ _) as [p|]; [|unfold raise; f_equal; world_eq].
    destruct (truthy p); [|unfold raise; f_equal; world_eq].
    unfold bind at 1. unfold new_client.
    destruct (from_service_account_info env info); [|f_equal; world_eq].
    destruct oc as [old|]; cbv -[app]; rewrite <- ?app_assoc; reflexivity.
  - unfold raise; f_equal; world_eq.
Qed.

(** C9: a refresh whose loader fails raises [CredentialRefreshError], one
    that finds no effective project raises [ConfigurationError], and every
    refresh that raises leaves the client handle and the stored payload as
    they were and closes nothing.  A refresh that returns has built the new
    client first, then, between acquiring and releasing the lock, closed
    the previous handle if there was one, installed the new one and
    recorded the payload. *)
Theorem refresh_client_atomic env w :
  let run := refresh_client env w in
  let failed := world_after w (self w) 1 0 0 [EvLoadCredentials] in
  (forall e, credential_loader env (loader_calls w) = Raise e ->
      run = (Raise (CredentialRefreshError msg_refresh), failed))
  /\ (forall info, credential_loader env (loader_calls w) = Return info ->
      py_truthy (effective_project (_default_project (self w)) info) = false ->
      run = (Raise (ConfigurationError msg_no_project), failed))
  /\ (forall e, fst run = Raise e -> snd run = failed)
  /\ (fst run = Return tt ->
      exists info client,
        credential_loader env (loader_calls w) = Return info
        /\ client_id client = clients w
        /\ credentials client = info
        /\ effective_project (_default_project (self w)) info = Some (project client)
        /\ snd run
           = world_after w (installed (self w) client info) 1 0 1
               ([EvLoadCredentials; EvNewClient client; EvAcquire]
                ++ close_events (self w)
                ++ [EvSetClient (Some (client_id client)); EvSetCredentialsInfo;
                    EvRelease])).
Proof.
  cbv zeta. rewrite refresh_client_run. cbv zeta.
  destruct (credential_loader env (loader_calls w)) as [info | e0].
  - destruct (effective_project _ info) as [p|] eqn:Ep.
    + destruct (truthy p) eqn:Et.
      * destruct (from_service_account_info env info).
        -- repeat split; try discriminate.
           ++ intros i Hi Hp. inversion Hi. subst i. rewrite Ep in Hp.
              simpl in Hp. congruence.
           ++ intros _.
              exists info, {| client_id := clients w; project := p;
                              credentials := info |}.
              repeat split; try reflexivity; exact Ep.
        -- repeat split; try discriminate.
           intros i Hi Hp. inversion Hi. subst i. rewrite Ep in Hp.
           simpl in Hp. congruence.
      * repeat split; discriminate.
    + repeat split; discriminate.
  - repeat split; discriminate.
Qed.

(** The loader succeeds for the constructor and fails afterwards: the
    failed refresh keeps the first client and its payload. *)
Lemma refresh_client_atomic_witness :
  let w := snd (refresh_client Sample.flaky_env (new_service None 300 500)) in
  refresh_client Sample.flaky_env w
  = (Raise (CredentialRefreshError msg_refresh),
     world_after w (self w) 1 0 0 [EvLoadCredentials])
  /\ _client (self w)
     = Some {| client_id := 0; project := str "proj"; credentials := Sample.payload |}.
Proof.
  split.
  - exact (proj1 (refresh_client_atomic Sample.flaky_env
                    (snd (refresh_client Sample.flaky_env (new_service None 300 500))))
                 (ForeignError "ClientError") eq_refl).
  - reflexivity.
Defined.

(** [close], by whether a client is installed. *)
Lemma close_run env w :
  close env w =
  (Return tt,
   match _client (self w) with
   | Some c =>
       world_after w (cleared (self w)) 0 0 0
         [EvAcquire; EvClose (client_id c); EvSetClient None; EvRelease]
   | None => world_after w (self w) 0 0 0 [EvAcquire; EvRelease]
   end).
Proof.
  destruct w as [[dp tmo size oc oi] lc q cl tr].
  destruct oc as [c|]; cbv -[app]; rewrite <- ?app_assoc; reflexivity.
Qed.

Lemma maybe_refresh_run exc env w :
  _maybe_refresh_on_auth_error exc env w =
  if is_auth_code (exc_code exc) then
    match refresh_client env w with
    | (Raise (CredentialRefreshError _), w') => (Return tt, w')
    | other => other
    end
  else (Return tt, w).
Proof.
  unfold _maybe_refresh_on_auth_error, try_except.
  destruct (is_auth_code (exc_code exc)); [|reflexivity].
  destruct (refresh_client env w) as [[[] | e] w']; [reflexivity|].
  destruct e; reflexivity.
Qed.

Lemma get_table_schema_world dataset_id table_name env w :
  snd (get_table_schema dataset_id table_name env w) =
  match _client (self w) with
  | Some c =>
      world_after w (self w) 0 0 0
        [EvAcquire; EvRelease;
         EvGetTable (client_id c)
                    (_build_table_reference dataset_id table_name (project c))]
  | None => world_after w (self w) 0 0 0 [EvAcquire; EvRelease]
  end.
Proof.
  unfold get_table_schema. unfold bind at 1. rewrite require_client_run. cbv zeta.
  destruct (_client (self w)) as [c|]; [|world_eq].
  unfold bind, try_except, get_table, ret, raise.
  destruct (client_get_table env c _) as [schema | exc].
  - world_eq.
  - destruct exc; world_eq.
Qed.

End Lifecycle.

(** ** bigquery_service.py: handles are closed once *)

Section Handles.

Import Service.

Lemma closed_handles_app a b :
  closed_handles (a ++ b) = closed_handles a ++ closed_handles b.
Proof.
  induction a as [|e a IH]; [reflexivity|].
  destruct e; simpl; now rewrite IH.
Qed.

Lemma closed_close_events s :
  closed_handles (close_events s)
  = match _client s with Some c => [client_id c] | None => [] end.
Proof. unfold close_events. now destruct (_client s). Qed.

(** Events that close nothing, on a world whose handle stays. *)
Lemma handles_ok_quiet w s loads submissions built es :
  closed_handles es = [] ->
  _client s = _client (self w) ->
  handles_ok w ->
  handles_ok (world_after w s loads submissions built es).
Proof.
  intros Hes Hs [Hn Hb Hl]. constructor; simpl.
  - now rewrite closed_handles_app, Hes, app_nil_r.
  - rewrite closed_handles_app, Hes, app_nil_r. intros h Hh.
    specialize (Hb h Hh). lia.
  - rewrite closed_handles_app, Hes, app_nil_r, Hs. intros c Hc.
    destruct (Hl c Hc). split; [lia | assumption].
Qed.

(** The installed handle, if any, is closed and a fresh one installed. *)
Lemma handles_ok_swap w s loads submissions es c :
  closed_handles es = closed_handles (close_events (self w)) ->
  _client s = Some c ->
  client_id c = clients w ->
  handles_ok w ->
  handles_ok (world_after w s loads submissions 1 es).
Proof.
  intros Hes Hs Hid [Hn Hb Hl].
  assert (Hclosed : forall h, In h (closed_handles (trace w ++ es)) ->
                              (h < clients w)%nat).
  { intros h. rewrite closed_handles_app, Hes, closed_close_events, in_app_iff.
    intros [Hh | Hh]; [now apply Hb|].
    destruct (_client (self w)) as [old|] eqn:Eo; [|contradiction].
    destruct Hh as [<- | []]. now apply Hl. }
  constructor; simpl.
  - rewrite closed_handles_app, Hes, closed_close_events.
    destruct (_client (self w)) as [old|] eqn:Eo.
    + apply NoDup_app; [exact Hn | repeat constructor; intros [] |].
      intros h Hh [<- | []]. destruct (Hl old eq_refl) as (_ & Hfresh). now apply Hfresh.
    + now rewrite app_nil_r.
  - intros h Hh. specialize (Hclosed h Hh). lia.
  - rewrite Hs. intros c' Hc'. inversion Hc'. subst c'. rewrite Hid. split; [lia|].
    intros Hin. specialize (Hclosed _ Hin). lia.
Qed.

(** The installed handle is closed and none is left. *)
Lemma handles_ok_clear w s es c :
  _client (self w) = Some c ->
  closed_handles es = [client_id c] ->
  _client s = None ->
  handles_ok w ->
  handles_ok (world_after w s 0 0 0 es).
Proof.
  intros Hc Hes Hs [Hn Hb Hl]. destruct (Hl c Hc) as (Hlt & Hfresh).
  constructor; simpl.
  - rewrite closed_handles_app, Hes.
    apply NoDup_app; [exact Hn | repeat constructor; intros [] |].
    intros h Hh [<- | []]. now apply Hfresh.
  - intros h. rewrite closed_handles_app, Hes, in_app_iff.
    intros [Hh | [<- | []]]; [now apply Hb | exact Hlt].
  - rewrite Hs. discriminate.
Qed.

Lemma handles_ok_log e w :
  closed_handles [e] = [] -> handles_ok w -> handles_ok (log e w).
Proof.
  intros He H. change (log e w) with (world_after w (self w) 0 0 0 [e]).
  now apply handles_ok_quiet.
Qed.

Lemma handles_ok_query_submitted w : handles_ok w -> handles_ok (query_submitted w).
Proof. intros [Hn Hb Hl]. constructor; assumption. Qed.

Lemma handles_ok_new_service default_project query_timeout_seconds row_chunk_size :
  handles_ok (new_service default_project query_timeout_seconds row_chunk_size).
Proof.
  constructor; simpl.
  - constructor.
  - intros h [].
  - discriminate.
Qed.

Lemma refresh_client_handles env w :
  handles_ok w -> handles_ok (snd (refresh_client env w)).
Proof.
  intros H. rewrite refresh_client_run. cbv zeta.
  destruct (credential_loader env (loader_calls w)) as [info | e];
    [|now apply handles_ok_quiet].
  destruct (effective_project _ info) as [p|]; [|now apply handles_ok_quiet].
  destruct (truthy p); [|now apply handles_ok_quiet].
  destruct (from_service_account_info env info); [|now apply handles_ok_quiet].
  cbn [snd].
  eapply handles_ok_swap; [| reflexivity | reflexivity | exact H].
  rewrite !closed_handles_app. simpl. now rewrite app_nil_r.
Qed.

Lemma close_handles env w : handles_ok w -> handles_ok (snd (close env w)).
Proof.
  intros H. rewrite close_run. cbn [snd].
  destruct (_client (self w)) as [c|] eqn:Ec.
  - eapply handles_ok_clear; [exact Ec | reflexivity | reflexivity | exact H].
  - now apply handles_ok_quiet.
Qed.

Lemma get_table_schema_handles dataset_id table_name env w :
  handles_ok w -> handles_ok (snd (get_table_schema dataset_id table_name env w)).
Proof.
  intros H. rewrite get_table_schema_world.
  destruct (_client (self w)); now apply handles_ok_quiet.
Qed.

Lemma maybe_refresh_handles exc env w :
  handles_ok w -> handles_ok (snd (_maybe_refresh_on_auth_error exc env w)).
Proof.
  intros H. rewrite maybe_refresh_run.
  destruct (is_auth_code (exc_code exc)); [|exact H].
  pose proof (refresh_client_handles env w H) as Hr.
  destruct (refresh_client env w) as [[[] | e] w']; [exact Hr|].
  destruct e; exact Hr.
Qed.

Lemma execute_query_handles sql max_rows env w :
  handles_ok w -> handles_ok (snd (execute_query sql max_rows env w)).
Proof.
  intros H. rewrite execute_query_run. cbv zeta.
  assert (H1 : handles_ok (log EvRelease (log EvAcquire w))).
  { apply handles_ok_log; [reflexivity|]. now apply handles_ok_log. }
  destruct (_client (self w)) as [c|]; [|exact H1].
  match goal with
  | |- context [log (EvQuery ?i ?q ?t ?p) (query_submitted ?x)] =>
      assert (H2 : handles_ok (log (EvQuery i q t p) (query_submitted x)))
        by (apply handles_ok_log; [reflexivity|];
            now apply handles_ok_query_submitted)
  end.
  destruct (client_query env (queries w) c sql) as [job iterator | exc];
    [exact H2|].
  destruct (is_google_api_call_error exc); [|exact H2].
  pose proof (maybe_refresh_handles exc env _ H2) as H3.
  destruct (_maybe_refresh_on_auth_error exc env _) as [[u | e] w3]; exact H3.
Qed.

Lemma run_calls_handles cs env w :
  handles_ok w -> handles_ok (run_calls cs env w).
Proof.
  revert w. induction cs as [|c cs IH]; intros w H; [exact H|].
  unfold run_calls. simpl. apply IH.
  destruct c; simpl.
  - now apply refresh_client_handles.
  - now apply close_handles.
  - now apply get_table_schema_handles.
  - now apply execute_query_handles.
Qed.

(** C10: [close] returns; after it no handle is installed, and the handle
    that was installed, if any, has been closed under the lock.  A second
    [close] changes no attribute of the service and closes nothing.  In
    every world a service reaches from its construction, by any calls and
    whatever its collaborators answer, no handle has been closed twice. *)
Theorem close_idempotent env w :
  let w1 := snd (close env w) in
  let w2 := snd (close env w1) in
  fst (close env w) = Return tt
  /\ _client (self w1) = None
  /\ trace w1 = trace w ++ [EvAcquire]
                ++ match _client (self w) with
                   | Some c => [EvClose (client_id c); EvSetClient None]
                   | None => []
                   end ++ [EvRelease]
  /\ self w2 = self w1
  /\ trace w2 = trace w1 ++ [EvAcquire; EvRelease]
  /\ (forall default_project query_timeout_seconds row_chunk_size calls,
      NoDup (closed_handles
               (trace (run_calls calls env
                         (new_service default_project query_timeout_seconds
                                      row_chunk_size))))).
Proof.
  cbv zeta.
  assert (H1 : _client (self (snd (close env w))) = None).
  { rewrite close_run. cbn [snd]. destruct (_client (self w)) eqn:E; [reflexivity|].
    exact E. }
  split; [now rewrite close_run|]. split; [exact H1|]. split.
  { rewrite close_run. cbn [snd]. destruct (_client (self w)); reflexivity. }
  split; [|split].
  - rewrite (close_run env (snd (close env w))). cbn [snd]. now rewrite H1.
  - rewrite (close_run env (snd (close env w))). cbn [snd]. now rewrite H1.
  - intros dp tmo size calls.
    apply ok_nodup, run_calls_handles, handles_ok_new_service.
Qed.

End Handles.

(** ** bigquery_service.py: a failed submission *)

Section SubmitFailure.

Import Service.

Lemma refresh_client_counts env w :
  loader_calls (snd (refresh_client env w)) = S (loader_calls w)
  /\ queries (snd (refresh_client env w)) = queries w.
Proof.
  rewrite refresh_client_run. cbv zeta.
  destruct (credential_loader env (loader_calls w)) as [info | e];
    [|split; reflexivity].
  destruct (effective_project _ info) as [p|]; [|split; reflexivity].
  destruct (truthy p); [|split; reflexivity].
  destruct (from_service_account_info env info); split; reflexivity.
Qed.

(** X23: what [execute_query] does when the submission raises a remote
    error: the query is submitted once; without an authentication status no
    refresh is attempted and [QueryExecutionError] is raised; with status
    401 or 403 the loader is called once, and [QueryExecutionError] is
    raised when the refresh returns or raises [CredentialRefreshError],
    while any other exception of the refresh takes its place. *)
Lemma execute_query_submit_failure env w sql max_rows c exc :
  _client (self w) = Some c ->
  client_query env (queries w) c sql = SubmitRaise exc ->
  is_google_api_call_error exc = true ->
  let run := execute_query sql max_rows env w in
  let failure :=
    Raise (QueryExecutionError (str "Failed to execute query: " ++ exc_message exc)) in
  let submitted :=
    log (EvQuery (client_id c) sql (_query_timeout_seconds (self w))
                 (_row_chunk_size (self w)))
        (query_submitted (log EvRelease (log EvAcquire w))) in
  queries (snd run) = S (queries w)
  /\ (is_auth_code (exc_code exc) = false ->
      run = (failure, submitted))
  /\ (is_auth_code (exc_code exc) = true ->
      loader_calls (snd run) = S (loader_calls w)
      /\ snd run = snd (refresh_client env submitted)
      /\ fst run = match fst (refresh_client env submitted) with
                   | Return _ | Raise (CredentialRefreshError _) => failure
                   | Raise e => Raise e
                   end).
Proof.
  intros Hc Hq Hg. cbv zeta. rewrite execute_query_run. cbv zeta.
  rewrite Hc, Hq, Hg, maybe_refresh_run.
  destruct (is_auth_code (exc_code exc)).
  - match goal with
    | |- context [refresh_client env ?x] =>
        destruct (refresh_client_counts env x) as (Hl & Hn);
        destruct (refresh_client env x) as [[[] | e] w'] eqn:Er
    end.
    + cbn [fst snd] in *. repeat split; try discriminate; assumption.
    + destruct e; cbn [fst snd] in *; repeat split; try discriminate; assumption.
  - cbn [fst snd]. repeat split; discriminate.
Qed.

(** C6, on a service set up without a default project whose secret has
    lost its [project_id]: the query is rejected with status 401 after one
    submission, the one refresh that follows raises [ConfigurationError],
    and that exception, not [QueryExecutionError], leaves [execute_query];
    the tool, which turns [QueryExecutionError] into a [QUERY_FAILURE]
    envelope, lets it through as well. *)
Theorem execute_query_auth_failure_escapes :
  let w := snd (refresh_client Sample.rotated_env (new_service None 300 500)) in
  let run := execute_query (str "select 1") 10 Sample.rotated_env w in
  let g := {| Server.CONFIG := None; Server.BIGQUERY := Some w |} in
  fst run = Raise (ConfigurationError msg_no_project)
  /\ queries (snd run) = 1%nat
  /\ loader_calls (snd run) = 2%nat
  /\ self (snd run) = self w
  /\ fst (Server.execute_query Sample.rotated_env (str "req-1") (str "select 1")
            (Some 10) g)
     = Raise (ConfigurationError msg_no_project).
Proof. cbv zeta. repeat split. Qed.

End SubmitFailure.

(** ** bigquery_service.py: table references *)

Section TableReference.

Import Service.

Lemma strip_split (s : pystr) :
  exists lead trail, all_space lead /\ all_space trail /\ s = lead ++ strip s ++ trail.
Proof.
  destruct (lstrip_split s) as (lead & Hlead & Hl).
  destruct (rstrip_split (lstrip s)) as (trail & Htrail & Hr).
  exists lead, trail. repeat split; try assumption.
  unfold strip. now rewrite <- Hr.
Qed.

Lemma In_strip c (s : pystr) : In c (strip s) -> In c s.
Proof.
  destruct (strip_split s) as (lead & trail & _ & _ & Hs). intros H.
  rewrite Hs, !in_app_iff. tauto.
Qed.

Lemma remove_char_absent c (s : pystr) : ~ In c (remove_char c s).
Proof.
  unfold remove_char. intros H. apply filter_In in H. destruct H as (_ & H).
  now rewrite Ascii.eqb_refl in H.
Qed.

(** C7: [get_table_schema] looks the table up under the reference built
    from the sanitized dataset id: the dataset id with every backtick
    removed and then the whitespace at both ends stripped.  When the
    sanitized id contains a dot the reference is the sanitized id, a dot
    and the table name; otherwise it is the project of the installed
    client, a dot, the sanitized id, a dot and the table name. *)
Theorem table_reference_qualified env w dataset_id table_name c :
  _client (self w) = Some c ->
  let sanitized := strip (remove_char "`" dataset_id) in
  let table_ref := _build_table_reference dataset_id table_name (project c) in
  trace (snd (get_table_schema dataset_id table_name env w))
  = trace w ++ [EvAcquire; EvRelease; EvGetTable (client_id c) table_ref]
  /\ ~ In "`"%char sanitized
  /\ strip sanitized = sanitized
  /\ (exists lead trail, all_space lead /\ all_space trail
        /\ remove_char "`" dataset_id = lead ++ sanitized ++ trail)
  /\ (In "."%char sanitized ->
      table_ref = sanitized ++ str "." ++ table_name)
  /\ (~ In "."%char sanitized ->
      table_ref = project c ++ str "." ++ sanitized ++ str "." ++ table_name).
Proof.
  intros Hc. cbv zeta. split; [|split; [|split; [|split; [|split]]]].
  - rewrite get_table_schema_world, Hc. reflexivity.
  - intros H. apply In_strip in H. now apply remove_char_absent in H.
  - apply strip_idem.
  - apply strip_split.
  - intros H. apply contains_In in H. unfold _build_table_reference. now rewrite H.
  - intros H. unfold _build_table_reference.
    destruct (contains "." (strip (remove_char "`" dataset_id))) eqn:E;
      [|reflexivity].
    apply contains_In in E. contradiction.
Qed.

(** A qualified dataset id is used as it is; a bare one, here quoted, gets
    the project of the client in front. *)
Lemma table_reference_qualified_witness :
  _build_table_reference (str "proj.dataset") (str "table") (str "proj")
  = str "proj.dataset.table"
  /\ _build_table_reference (str " `dataset` ") (str "table") (str "proj")
     = str "proj.dataset.table".
Proof.
  assert (Hc : _client (self Sample.world)
               = Some {| client_id := 0; project := str "proj";
                         credentials := Sample.payload |}) by reflexivity.
  split.
  - refine (proj1 (proj2 (proj2 (proj2 (proj2
              (table_reference_qualified Sample.env Sample.world
                 (str "proj.dataset") (str "table") _ Hc))))) _).
    simpl. tauto.
  - refine (proj2 (proj2 (proj2 (proj2 (proj2
              (table_reference_qualified Sample.env Sample.world
                 (str " `dataset` ") (str "table") _ Hc))))) _).
    simpl. intros H. repeat (destruct H as [H|H]; [discriminate H|]). exact H.
Defined.

End TableReference.

(** ** config.py and server.py: the row limit *)

Section RowLimit.

Import Utils Server.

(** A parsed setting is positive whenever its default is. *)
Lemma parse_int_positive int_of value default name n :
  0 < default ->
  Config._parse_int int_of value default name = Return n -> 0 < n.
Proof.
  intros Hd. unfold Config._parse_int.
  destruct value as [v|]; [|intros H; inversion H; now subst].
  destruct (int_of v) as [parsed|]; [|discriminate].
  destruct (Z.leb_spec parsed 0) as [Hle | Hgt]; [discriminate|].
  intros H. inversion H. now subst.
Qed.

Lemma prepare_run g sql max_rows validated :
  validate_sql_query sql = Return validated ->
  prepare g sql max_rows =
  let limit := default_limit g in
  let rows_limit := match max_rows with
                    | Some m => if m >? limit then limit else m
                    | None => limit
                    end in
  if rows_limit <=? 0 then
    Raise (QueryValidationError (str "max_rows must be greater than zero"))
  else Return (validated, rows_limit).
Proof.
  intros Hv. unfold prepare. rewrite Hv. cbv zeta.
  destruct max_rows as [m|]; [reflexivity|].
  now rewrite Z.gtb_ltb, Z.ltb_irrefl.
Qed.

Lemma isspace_lower_char c : isspace (lower_char c) = isspace c.
Proof. destruct c as [[] [] [] [] [] [] [] []]; reflexivity. Qed.

Lemma lstrip_lower s : lstrip (lower s) = lower (lstrip s).
Proof.
  induction s as [|c r IH]; [reflexivity|].
  simpl. rewrite isspace_lower_char. now destruct (isspace c).
Qed.

(** The [IndexError] of the token lookup cannot happen: the validator
    raises nothing but [QueryValidationError]. *)
Lemma validate_raises_validation sql e :
  validate_sql_query sql = Raise e -> exists msg, e = QueryValidationError msg.
Proof.
  unfold validate_sql_query.
  destruct (negb (truthy sql) || negb (truthy (strip sql))) eqn:Eb.
  { intros H. inversion H. now eexists. }
  unfold split_first. rewrite lstrip_lower, strip_lstrip.
  destruct (strip sql) as [|c r] eqn:Es.
  { rewrite orb_true_r in Eb. discriminate. }
  cbn [lower map].
  destruct (mem _ PROHIBITED_PREFIXES); [intros H; inversion H; now eexists|].
  destruct (negb (mem _ READ_ONLY_PREFIXES)); [intros H; inversion H; now eexists|].
  destruct (contains _ _); [intros H; inversion H; now eexists|].
  discriminate.
Qed.

(** C8: a supplied [max_rows] of zero or less is answered with an
    [INVALID_SQL] error envelope and the globals, the service among them,
    are left as they were.  On valid SQL, with a positive server limit and
    an initialized service, an absent [max_rows] or one above the limit has
    the service called with the limit itself, the answer of the tool is
    built from that call, and a success payload carries the validated SQL
    and the limit as its [max_rows]. *)
Theorem execute_query_row_limit env g request_id sql max_rows :
  let limit := default_limit g in
  (forall m, max_rows = Some m -> m <= 0 ->
     exists msg,
       execute_query env request_id sql max_rows g
       = (Return (Failure request_id
                    {| code := str "INVALID_SQL"; message := msg; detail := None |}),
          g))
  /\ (forall validated service,
        validate_sql_query sql = Return validated ->
        BIGQUERY g = Some service ->
        0 < limit ->
        max_rows = None \/ (exists m, max_rows = Some m /\ limit < m) ->
        let served := Service.execute_query validated limit env service in
        execute_query env request_id sql max_rows g
        = (answered request_id validated limit (fst served),
           {| CONFIG := CONFIG g; BIGQUERY := Some (snd served) |})
        /\ (forall result, fst served = Return result ->
            exists payload,
              answered request_id validated limit (fst served)
              = Return (Success request_id payload)
              /\ Server.max_rows payload = limit
              /\ Server.sql payload = validated
              /\ Server.row_count payload = Service.row_count result)).
Proof.
  cbv zeta. split.
  - intros m -> Hm. unfold execute_query.
    destruct (validate_sql_query sql) as [v | e] eqn:Ev.
    + rewrite (prepare_run _ _ _ _ Ev). cbv zeta.
      destruct (Z.gtb_spec m (default_limit g)) as [Hgt | Hle].
      * destruct (Z.leb_spec (default_limit g) 0); [|lia]. now eexists.
      * destruct (Z.leb_spec m 0); [|lia]. now eexists.
    + destruct (validate_raises_validation _ _ Ev) as (msg & ->).
      unfold prepare. rewrite Ev. now eexists.
  - intros v service Hv Hs Hpos Hmax.
    assert (Hp : prepare g sql max_rows = Return (v, default_limit g)).
    { rewrite (prepare_run _ _ _ _ Hv). cbv zeta.
      destruct Hmax as [-> | (m & -> & Hm)].
      - destruct (Z.leb_spec (default_limit g) 0); [lia | reflexivity].
      - destruct (Z.gtb_spec m (default_limit g)); [|lia].
        destruct (Z.leb_spec (default_limit g) 0); [lia | reflexivity]. }
    split.
    + unfold execute_query. rewrite Hp. unfold call_service. rewrite Hs.
      destruct (Service.execute_query v (default_limit g) env service)
        as [[result | e] service']; [reflexivity|].
      destruct e; reflexivity.
    + intros result ->. eexists. repeat split.
Qed.

(** Ten rows asked of a server that allows four: the service is called
    with four, and the payload says so. *)
Lemma execute_query_row_limit_witness :
  execute_query Sample.env (str "req-1") (str "select n") (Some 10) Sample.globals
  = (answered (str "req-1") (str "select n") 4
       (fst (Service.execute_query (str "select n") 4 Sample.env Sample.world)),
     {| CONFIG := CONFIG Sample.globals;
        BIGQUERY := Some (snd (Service.execute_query (str "select n") 4
                                 Sample.env Sample.world)) |})
  /\ exists msg,
       execute_query Sample.env (str "req-2") (str "select n") (Some 0) Sample.globals
       = (Return (Failure (str "req-2")
                    {| code := str "INVALID_SQL"; message := msg; detail := None |}),
          Sample.globals).
Proof.
  split.
  - refine (proj1 (proj2 (execute_query_row_limit Sample.env Sample.globals
                            (str "req-1") (str "select n") (Some 10))
                     (str "select n") Sample.world eq_refl eq_refl _ _)).
    + reflexivity.
    + right. exists 10. split; [reflexivity | reflexivity].
  - refine (proj1 (execute_query_row_limit Sample.env Sample.globals
                     (str "req-2") (str "select n") (Some 0)) 0 eq_refl _).
    discriminate.
Defined.

End RowLimit.

(* ------------------------------------------------------------------ *)
(** * Further properties of the code *)
(* ------------------------------------------------------------------ *)

(** ** validators.py: what is accepted *)

Section Accepted.

Implicit Types sql r tok : pystr.

Lemma first_token_exists sql :
  strip sql <> [] -> exists tok, first_token sql = Some tok.
Proof.
  intros H. unfold first_token, split_first.
  rewrite lstrip_lower, strip_lstrip.
  destruct (strip sql) as [|c u]; [now elim H|].
  eexists. reflexivity.
Qed.

(** An accepted input went through every check. *)
Lemma validate_return_inv sql r :
  validate_sql_query sql = Return r ->
  exists tok,
    first_token sql = Some tok /\ In tok READ_ONLY_PREFIXES
    /\ contains ";" (drop_last (strip sql)) = false
    /\ r = strip (if endswith (strip sql) ";" then drop_last (strip sql)
                  else strip sql).
Proof.
  intros H.
  destruct (strip sql) as [|c u] eqn:Es.
  { rewrite (validate_blank _ Es) in H. discriminate. }
  destruct (first_token_exists sql) as (tok & Ht); [rewrite Es; discriminate|].
  exists tok. rewrite (validate_unfold _ _ Ht), Es in H.
  destruct (mem tok PROHIBITED_PREFIXES); [discriminate|].
  destruct (mem tok READ_ONLY_PREFIXES) eqn:Ea; [|discriminate].
  simpl negb in H. cbv iota in H.
  destruct (contains ";" (drop_last (c :: u))) eqn:Ec; [discriminate|].
  inversion H. repeat split; try assumption. now apply mem_In.
Qed.

Lemma take_token_app (a b : pystr) :
  take_token (a ++ b)
  = if existsb isspace a then take_token a else a ++ take_token b.
Proof.
  induction a as [|c a IH]; [reflexivity|].
  simpl. destruct (isspace c); [reflexivity|]. simpl. rewrite IH.
  now destruct (existsb isspace a).
Qed.

Lemma take_token_clean (a : pystr) :
  existsb isspace a = false -> take_token a = a.
Proof.
  intros H. rewrite <- (app_nil_r a) at 1. rewrite take_token_app, H.
  simpl. now rewrite app_nil_r.
Qed.

Lemma allowed_no_semicolon tok : In tok READ_ONLY_PREFIXES -> ~ In ";"%char tok.
Proof.
  simpl. intros [<- | [<- | [<- | []]]] H; simpl in H;
    repeat (destruct H as [H | H]; [discriminate H|]); exact H.
Qed.

Lemma existsb_isspace_lower (a : pystr) :
  existsb isspace (lower a) = existsb isspace a.
Proof.
  induction a as [|c a IH]; [reflexivity|].
  simpl. now rewrite isspace_lower_char, IH.
Qed.

Lemma lower_app (a b : pystr) : lower (a ++ b) = lower a ++ lower b.
Proof. apply map_app. Qed.

Lemma split_first_no_lead (s : pystr) :
  lstrip s = s -> s <> [] -> split_first s = Some (take_token s).
Proof.
  intros Hl Hs. unfold split_first. rewrite Hl.
  destruct s; [now elim Hs | reflexivity].
Qed.

Lemma lstrip_app_head (a b : pystr) :
  a <> [] -> lstrip (a ++ b) = a ++ b -> lstrip a = a.
Proof.
  destruct a as [|c a']; [intros H; now elim H|]. intros _ H.
  assert (Hc : isspace c = false).
  { destruct (isspace c) eqn:E; [|reflexivity]. exfalso.
    simpl in H. rewrite E in H.
    remember (a' ++ b) as x eqn:Ex. clear Ex.
    destruct (lstrip_split x) as (l & _ & Hsp).
    apply (f_equal (@List.length ascii)) in H, Hsp.
    rewrite length_app in Hsp. simpl in H. lia. }
  simpl. now rewrite Hc.
Qed.

(** The token of an accepted input is still the token of what is
    returned for it. *)
Lemma token_kept r ws tok :
  all_space ws ->
  lstrip (r ++ ws ++ [";"%char]) = r ++ ws ++ [";"%char] ->
  split_first (lower (r ++ ws ++ [";"%char])) = Some tok ->
  In tok READ_ONLY_PREFIXES ->
  split_first (lower r) = Some tok /\ r <> [].
Proof.
  intros Hws Hl Ht Hin.
  assert (Hsemi := allowed_no_semicolon _ Hin).
  rewrite split_first_no_lead in Ht;
    [| now rewrite lstrip_lower, Hl | destruct r; [destruct ws|]; discriminate].
  injection Ht as Htok.
  rewrite !lower_app, take_token_app in Htok.
  change (lower [";"%char]) with [";"%char] in Htok.
  destruct r as [|c r'].
  - exfalso. destruct ws as [|w ws'].
    + apply Hsemi. rewrite <- Htok. simpl. now left.
    + apply Forall_inv in Hws.
      assert (Hc : isspace w = false) by (eapply lstrip_head; exact Hl).
      congruence.
  - split; [|discriminate].
    assert (Hr : lstrip (c :: r') = c :: r').
    { eapply lstrip_app_head; [discriminate | exact Hl]. }
    rewrite split_first_no_lead;
      [| now rewrite lstrip_lower, Hr | discriminate].
    f_equal.
    destruct (existsb isspace (lower (c :: r'))) eqn:Esp; [exact Htok|].
    rewrite (take_token_clean _ Esp).
    destruct ws as [|w ws'].
    + exfalso. apply Hsemi. rewrite <- Htok. apply in_or_app. right.
      simpl. now left.
    + apply Forall_inv in Hws.
      simpl in Htok. rewrite isspace_lower_char, Hws in Htok.
      now rewrite app_nil_r in Htok.
Qed.

Lemma In_drop_last c (s : pystr) : In c (drop_last s) -> contains c (drop_last s) = true.
Proof. apply contains_In. Qed.

(** What is known of an accepted input and of the text returned for it. *)
Lemma validate_return_clean sql r :
  validate_sql_query sql = Return r ->
  r <> [] /\ strip r = r /\ ~ In ";"%char r
  /\ exists tok, first_token sql = Some tok /\ first_token r = Some tok
                 /\ In tok READ_ONLY_PREFIXES.
Proof.
  intros H. destruct (validate_return_inv _ _ H) as (tok & Ht & Hin & Hc & Hr).
  destruct (first_token_nonblank _ _ Ht) as (_ & Hne).
  destruct (endswith (strip sql) ";") eqn:Ee.
  - destruct (proj1 (endswith_last _ _) Ee) as (body & Hb).
    assert (Hl : lstrip (drop_last (strip sql)) = drop_last (strip sql))
      by apply lstrip_removelast, strip_lstrip.
    unfold drop_last in *. rewrite Hb, removelast_last in *.
    rewrite (strip_no_lead _ Hl) in Hr.
    destruct (rstrip_split body) as (ws & Hws & Hsplit). rewrite <- Hr in Hsplit.
    assert (Hshape : strip sql = r ++ ws ++ [";"%char])
      by (rewrite Hb, Hsplit; now rewrite <- app_assoc).
    destruct (token_kept r ws tok Hws) as (Hk & Hrne); try assumption.
    { rewrite <- Hshape. apply strip_lstrip. }
    { unfold first_token in Ht. now rewrite Hshape in Ht. }
    assert (Hs : strip r = r).
    { rewrite Hr. rewrite <- (strip_no_lead _ Hl). apply strip_idem. }
    repeat split; try assumption.
    + intros Hin'. assert (E : contains ";" body = true).
      { apply contains_In. rewrite Hsplit. apply in_or_app. now left. }
      congruence.
    + exists tok. repeat split; try assumption.
      unfold first_token. now rewrite Hs.
  - rewrite strip_idem in Hr. subst r. repeat split.
    + exact Hne.
    + apply strip_idem.
    + intros Hin'. destruct (strip sql) as [|z body _] using rev_ind;
        [contradiction|].
      apply in_app_or in Hin'. destruct Hin' as [Hin' | [-> | []]].
      * unfold drop_last in Hc. rewrite removelast_last in Hc.
        apply contains_In in Hin'. congruence.
      * assert (E : endswith (body ++ [";"%char]) ";" = true)
          by (apply endswith_last; now exists body).
        congruence.
    + exists tok. repeat split; try assumption.
      unfold first_token. now rewrite strip_idem.
Qed.

(** X1: whatever [validate_sql_query] returns is non-empty, has no
    whitespace at either end and no semicolon anywhere, and starts (up to
    case) with the same token as the input, one of select, with and
    explain. *)
Theorem validate_accepts_clean sql r :
  validate_sql_query sql = Return r ->
  r <> [] /\ strip r = r /\ ~ In ";"%char r
  /\ exists tok, first_token sql = Some tok /\ first_token r = Some tok
                 /\ In tok READ_ONLY_PREFIXES.
Proof. apply validate_return_clean. Qed.

Lemma validate_accepts_clean_witness :
  str "WITH t AS (SELECT 1) SELECT * FROM t" <> []
  /\ strip (str "WITH t AS (SELECT 1) SELECT * FROM t")
     = str "WITH t AS (SELECT 1) SELECT * FROM t"
  /\ ~ In ";"%char (str "WITH t AS (SELECT 1) SELECT * FROM t")
  /\ exists tok,
       first_token (str "  WITH t AS (SELECT 1) SELECT * FROM t ; ") = Some tok
       /\ first_token (str "WITH t AS (SELECT 1) SELECT * FROM t") = Some tok
       /\ In tok READ_ONLY_PREFIXES.
Proof.
  apply (validate_accepts_clean
           (str "  WITH t AS (SELECT 1) SELECT * FROM t ; ")
           (str "WITH t AS (SELECT 1) SELECT * FROM t")).
  reflexivity.
Defined.

(** X2: validation is idempotent: a text it returns is accepted again and
    returned unchanged. *)
Theorem validate_idempotent sql r :
  validate_sql_query sql = Return r -> validate_sql_query r = Return r.
Proof.
  intros H.
  destruct (validate_return_clean _ _ H) as (Hne & Hs & Hsemi & tok & _ & Ht & Hin).
  rewrite (validate_unfold _ _ Ht), (allowed_not_prohibited _ Hin).
  apply mem_In in Hin. rewrite Hin, Hs. simpl negb. cbv iota.
  destruct (contains ";" (drop_last r)) eqn:Ec.
  { exfalso. apply Hsemi. apply contains_In in Ec. unfold drop_last in Ec.
    destruct r as [|z body _] using rev_ind; [contradiction|].
    rewrite removelast_last in Ec. apply in_or_app. now left. }
  destruct (endswith r ";") eqn:Ee.
  { exfalso. apply Hsemi. apply endswith_last in Ee. destruct Ee as (body & ->).
    apply in_or_app. right. simpl. now left. }
  now rewrite Hs.
Qed.

Lemma validate_idempotent_witness :
  validate_sql_query (str "explain select 1") = Return (str "explain select 1").
Proof.
  apply (validate_idempotent (str " explain select 1 ;")). reflexivity.
Defined.

End Accepted.

(** ** validators.py: what is rejected *)

Section Rejected.

Implicit Types sql : pystr.

Lemma lstrip_nil_iff (s : pystr) : lstrip s = [] <-> all_space s.
Proof.
  split.
  - intros H. destruct (lstrip_split s) as (ws & Hws & Hs).
    rewrite H, app_nil_r in Hs. now subst.
  - induction 1 as [|c r Hc _ IH]; [reflexivity|]. simpl. now rewrite Hc.
Qed.

Lemma strip_nil_iff (s : pystr) : strip s = [] <-> all_space s.
Proof.
  rewrite <- lstrip_nil_iff. unfold strip. split.
  - intros H. destruct (lstrip s) as [|c r] eqn:E; [reflexivity|].
    rewrite rstrip_cons in H by (eapply lstrip_head; exact E). discriminate.
  - now intros ->.
Qed.

(** X3: [validate_sql_query] raises nothing but [QueryValidationError],
    with one of its four messages, each for its own cause: the empty-query
    message on input without a token, the read-only message on a
    prohibited first token, the "must start with" message on a token in
    neither set, the multi-statement message on an allowed token followed
    by a semicolon before the end. *)
Theorem validate_failure_kinds sql e :
  validate_sql_query sql = Raise e ->
  (e = QueryValidationError msg_empty /\ first_token sql = None)
  \/ exists tok,
       first_token sql = Some tok
       /\ ((e = QueryValidationError msg_read_only /\ In tok PROHIBITED_PREFIXES)
           \/ (e = QueryValidationError msg_must_start
               /\ ~ In tok PROHIBITED_PREFIXES /\ ~ In tok READ_ONLY_PREFIXES)
           \/ (e = QueryValidationError msg_multiple
               /\ In tok READ_ONLY_PREFIXES
               /\ semicolon_before_end (strip sql))).
Proof.
  intros H. destruct (strip sql) as [|c u] eqn:Es.
  - left. rewrite (validate_blank _ Es) in H. inversion H. split; [reflexivity|].
    unfold first_token. now rewrite Es.
  - right. destruct (first_token_exists sql) as (tok & Ht); [rewrite Es; discriminate|].
    exists tok. split; [exact Ht|].
    rewrite (validate_unfold _ _ Ht) in H.
    destruct (mem tok PROHIBITED_PREFIXES) eqn:Ep.
    { left. inversion H. split; [reflexivity | now apply mem_In]. }
    destruct (mem tok READ_ONLY_PREFIXES) eqn:Ea; simpl negb in H; cbv iota in H.
    + destruct (contains ";" (drop_last (strip sql))) eqn:Ec; [|discriminate].
      right. right. inversion H. repeat split.
      * now apply mem_In.
      * rewrite <- Es. now apply contains_drop_last.
    + right. left. inversion H. repeat split; now apply mem_not_In.
Qed.

Lemma validate_failure_kinds_witness :
  (QueryValidationError msg_multiple = QueryValidationError msg_empty
   /\ first_token (str "select 1; drop table t") = None)
  \/ exists tok,
       first_token (str "select 1; drop table t") = Some tok
       /\ ((QueryValidationError msg_multiple = QueryValidationError msg_read_only
            /\ In tok PROHIBITED_PREFIXES)
           \/ (QueryValidationError msg_multiple = QueryValidationError msg_must_start
               /\ ~ In tok PROHIBITED_PREFIXES /\ ~ In tok READ_ONLY_PREFIXES)
           \/ (QueryValidationError msg_multiple = QueryValidationError msg_multiple
               /\ In tok READ_ONLY_PREFIXES
               /\ semicolon_before_end (strip (str "select 1; drop table t")))).
Proof.
  apply (validate_failure_kinds (str "select 1; drop table t")). reflexivity.
Defined.

(** X4: the empty-query error is raised on exactly the inputs that are
    empty or made of whitespace only. *)
Theorem validate_empty_iff_blank sql :
  validate_sql_query sql = Raise (QueryValidationError msg_empty) <-> all_space sql.
Proof.
  split.
  - intros H. apply strip_nil_iff.
    destruct (strip sql) as [|c u] eqn:Es; [reflexivity|]. exfalso.
    destruct (first_token_exists sql) as (tok & Ht); [rewrite Es; discriminate|].
    rewrite (validate_unfold _ _ Ht) in H.
    destruct (mem tok PROHIBITED_PREFIXES); [discriminate H|].
    destruct (negb (mem tok READ_ONLY_PREFIXES)); [discriminate H|].
    destruct (contains ";" (drop_last (strip sql))); discriminate H.
  - intros H. apply validate_blank. now apply strip_nil_iff.
Qed.

End Rejected.

(** ** aws_secrets.py: what a fetch hands back *)

Section FetchOutcome.

Import AwsSecrets.

Variable boto : Boto.
Variable secret_name : pystr.

(** A decoded response is a JSON object read from the secret string, or
    from the binary secret when there is no string. *)
Lemma decode_response_inv SecretString SecretBinary data :
  decode_response boto SecretString SecretBinary = Return data ->
  exists p,
    (SecretString = Some p
     \/ SecretString = None
        /\ exists b, SecretBinary = Some b /\ b64decode_utf8 boto b = Some p)
    /\ json_loads boto p = Some (JsonDict data).
Proof.
  unfold decode_response.
  destruct SecretString as [p|].
  - destruct (json_loads boto p) as [[d|]|] eqn:Ej; try discriminate.
    intros H. inversion H. subst. exists p. split; [now left | exact Ej].
  - destruct SecretBinary as [b|]; [|discriminate].
    destruct (b64decode_utf8 boto b) as [p|] eqn:Eb; [|discriminate].
    destruct (json_loads boto p) as [[d|]|] eqn:Ej; try discriminate.
    intros H. inversion H. subst. exists p. split; [|exact Ej].
    right. split; [reflexivity|]. now exists b.
Qed.


(** Every run settles on the answer to one of its at most three calls:
    the first that is not a throttling error, or the third. *)
Lemma fetch_settles w :
  exists i, (i < 3)%nat
    /\ fst (fetch_service_account boto secret_name w)
       = settle boto secret_name (get_secret_value boto (i + calls w) secret_name)
    /\ calls (snd (fetch_service_account boto secret_name w)) = (S i + calls w)%nat.
Proof.
  unfold fetch_service_account. change (seq 0 3) with [0; 1; 2]%nat.
  do 3 (rewrite fetch_loop_step; cbv zeta).
  unfold emit. cbn [calls trace Nat.add Nat.ltb Nat.leb andb].
  rewrite !andb_true_r, andb_false_r.
  destruct (is_throttle (get_secret_value boto (calls w) secret_name));
    [destruct (is_throttle (get_secret_value boto (S (calls w)) secret_name))|].
  - exists 2%nat. repeat split. lia.
  - exists 1%nat. repeat split. lia.
  - exists 0%nat. repeat split. lia.
Qed.

(** X5: a payload [fetch_service_account] returns is always a JSON object
    parsed from the secret of one of its at most three responses: from the
    secret string when the response has one, else from the decoded binary
    secret. *)
Theorem fetch_returns_parsed_object w data w' :
  fetch_service_account boto secret_name w = (Return data, w') ->
  exists i SecretString SecretBinary p,
    (i < 3)%nat
    /\ get_secret_value boto (i + calls w) secret_name
       = Response SecretString SecretBinary
    /\ (SecretString = Some p
        \/ SecretString = None
           /\ exists b, SecretBinary = Some b /\ b64decode_utf8 boto b = Some p)
    /\ json_loads boto p = Some (JsonDict data)
    /\ calls w' = (S i + calls w)%nat.
Proof.
  intros H. destruct (fetch_settles w) as (i & Hi & Hf & Hc).
  rewrite H in Hf, Hc. cbn [fst snd] in Hf, Hc.
  destruct (get_secret_value boto (i + calls w) secret_name) as [ss sb | Code] eqn:Er;
    [|discriminate].
  simpl in Hf. symmetry in Hf.
  destruct (decode_response_inv _ _ _ Hf) as (p & Hp & Hj).
  exists i, ss, sb, p. repeat split; assumption.
Qed.


End FetchOutcome.

(** Throttled twice and then served a secret string: the payload is the
    object parsed from that string. *)
Lemma fetch_returns_parsed_object_witness :
  exists i SecretString SecretBinary p,
    (i < 3)%nat
    /\ AwsSecrets.get_secret_value Sample.boto (i + 0) (str "gcp-sa")
       = AwsSecrets.Response SecretString SecretBinary
    /\ (SecretString = Some p
        \/ SecretString = None
           /\ exists b, SecretBinary = Some b
                        /\ AwsSecrets.b64decode_utf8 Sample.boto b = Some p)
    /\ AwsSecrets.json_loads Sample.boto p = Some (AwsSecrets.JsonDict Sample.payload)
    /\ 3%nat = (S i + 0)%nat.
Proof.
  apply (fetch_returns_parsed_object Sample.boto (str "gcp-sa")
           {| AwsSecrets.calls := 0; AwsSecrets.trace := [] |} Sample.payload
           (snd (AwsSecrets.fetch_service_account Sample.boto (str "gcp-sa")
                   {| AwsSecrets.calls := 0; AwsSecrets.trace := [] |}))).
  reflexivity.
Defined.


(** ** bigquery_service.py: schema lookups *)

Section SchemaLookup.

Import Service.

Lemma get_table_schema_result dataset_id table_name env w :
  fst (get_table_schema dataset_id table_name env w) =
  match _client (self w) with
  | None => Raise (QueryExecutionError (str "BigQuery client is not initialized"))
  | Some c =>
      let table_ref := _build_table_reference dataset_id table_name (project c) in
      match client_get_table env c table_ref with
      | Table schema => Return (map _serialize_schema_field schema)
      | LookupRaise (NotFound _) =>
          Raise (TableNotFoundError
                   (str "Table '" ++ table_ref ++ str "' was not found"))
      | LookupRaise (GoogleAPICallError _ _) =>
          Raise (QueryExecutionError (str "Failed to retrieve table schema"))
      | LookupRaise exc => Raise exc
      end
  end.
Proof.
  unfold get_table_schema. unfold bind at 1. rewrite require_client_run. cbv zeta.
  destruct (_client (self w)) as [c|]; [|reflexivity].
  unfold bind, try_except, get_table, ret, raise.
  destruct (client_get_table env c _) as [schema | exc]; [reflexivity|].
  destruct exc; reflexivity.
Qed.

(** X7: a schema lookup touches nothing but the trace: the client, the
    stored payload and the counters of loader calls, submissions and
    clients stay as they are and no handle is closed.  Without a client it
    raises [QueryExecutionError]; a table the warehouse does not find
    gives [TableNotFoundError] naming the reference that was looked up;
    any other remote error gives [QueryExecutionError]; a table that is
    found gives one serialized entry per column, in order. *)
Theorem get_table_schema_outcomes dataset_id table_name env w :
  let run := get_table_schema dataset_id table_name env w in
  self (snd run) = self w
  /\ loader_calls (snd run) = loader_calls w
  /\ queries (snd run) = queries w
  /\ clients (snd run) = clients w
  /\ closed_handles (trace (snd run)) = closed_handles (trace w)
  /\ (_client (self w) = None ->
      fst run = Raise (QueryExecutionError (str "BigQuery client is not initialized")))
  /\ (forall c table_ref,
        _client (self w) = Some c ->
        table_ref = _build_table_reference dataset_id table_name (project c) ->
        (forall message, client_get_table env c table_ref = LookupRaise (NotFound message) ->
           fst run = Raise (TableNotFoundError
                              (str "Table '" ++ table_ref ++ str "' was not found")))
        /\ (forall message code,
              client_get_table env c table_ref
              = LookupRaise (GoogleAPICallError message code) ->
              fst run = Raise (QueryExecutionError (str "Failed to retrieve table schema")))
        /\ (forall schema, client_get_table env c table_ref = Table schema ->
              exists columns, fst run = Return columns
                /\ columns = map _serialize_schema_field schema
                /\ List.length columns = List.length schema)).
Proof.
  cbv zeta. rewrite get_table_schema_world, get_table_schema_result.
  assert (Hquiet : forall es, closed_handles es = [] ->
            closed_handles (trace w ++ es) = closed_handles (trace w)).
  { intros es Hes. now rewrite closed_handles_app, Hes, app_nil_r. }
  destruct (_client (self w)) as [c|].
  - split; [reflexivity|]. split; [reflexivity|]. split; [reflexivity|].
    split; [reflexivity|]. split; [now apply Hquiet|]. split; [discriminate|].
    intros c' table_ref Hc ->. inversion Hc. subst c'. cbv zeta.
    split; [|split].
    + intros m Hm. now rewrite Hm.
    + intros m code Hm. now rewrite Hm.
    + intros schema Hs. rewrite Hs. eexists. repeat split. apply length_map.
  - split; [reflexivity|]. split; [reflexivity|]. split; [reflexivity|].
    split; [reflexivity|]. split; [now apply Hquiet|]. split; [reflexivity|].
    intros c table_ref Hc. discriminate Hc.
Qed.



End SchemaLookup.

(** ** bigquery_service.py: what a query run does to the service *)

Section QueryEffects.

Import Service.

(** X9: once [close] has run, queries and schema lookups fail with
    [QueryExecutionError] before anything is sent: no submission, no
    lookup, no call of the credential loader; only the lock is taken and
    released. *)
Theorem closed_service_fails_fast env w sql max_rows dataset_id table_name :
  let w1 := snd (close env w) in
  let not_initialized :=
    QueryExecutionError (str "BigQuery client is not initialized") in
  execute_query sql max_rows env w1
  = (Raise not_initialized,
     world_after w1 (self w1) 0 0 0 [EvAcquire; EvRelease])
  /\ fst (get_table_schema dataset_id table_name env w1) = Raise not_initialized
  /\ snd (get_table_schema dataset_id table_name env w1)
     = world_after w1 (self w1) 0 0 0 [EvAcquire; EvRelease].
Proof.
  cbv zeta.
  assert (H1 : _client (self (snd (close env w))) = None).
  { rewrite close_run. cbn [snd]. destruct (_client (self w)) eqn:E; [reflexivity|].
    exact E. }
  rewrite execute_query_run, get_table_schema_world, get_table_schema_result, H1.
  cbv zeta. repeat split. f_equal. world_eq.
Qed.

(** X10: a query that returns a result was submitted exactly once, on the
    installed client, with the configured timeout and the chunk size as
    page size; the credential loader was not called, no client was built
    or closed and the attributes of the service are unchanged; the
    metadata of the result is the metadata of the job. *)
Theorem execute_query_success_effects env w w' sql max_rows result :
  execute_query sql max_rows env w = (Return result, w') ->
  exists c job iterator,
    _client (self w) = Some c
    /\ client_query env (queries w) c sql = Submitted job iterator
    /\ w' = world_after w (self w) 0 1 0
              [EvAcquire; EvRelease;
               EvQuery (client_id c) sql (_query_timeout_seconds (self w))
                       (_row_chunk_size (self w))]
    /\ result_job_id result = job_id job
    /\ statement_type result = job_statement_type job
    /\ cache_hit result = job_cache_hit job
    /\ bytes_processed result = total_bytes_processed job
    /\ slot_millis result = job_slot_millis job.
Proof.
  rewrite execute_query_run. cbv zeta.
  destruct (_client (self w)) as [c|]; [|discriminate].
  destruct (client_query env (queries w) c sql) as [job iterator | exc] eqn:Eq.
  - intros H. inversion H as [[Hr Hw]]. exists c, job, iterator.
    split; [reflexivity|]. split; [exact Eq|]. split; [world_eq|].
    unfold collect in Hr.
    destruct (stream_rows _ max_rows iterator loop_start); [|discriminate].
    inversion Hr. repeat split.
  - destruct (is_google_api_call_error exc); [|discriminate].
    destruct (_maybe_refresh_on_auth_error exc env _) as [[u | e] w3]; discriminate.
Qed.

Lemma execute_query_success_effects_witness :
  exists c job iterator,
    _client (self Sample.world) = Some c
    /\ client_query Sample.env (queries Sample.world) c (str "select n")
       = Submitted job iterator
    /\ snd (execute_query (str "select n") 3 Sample.env Sample.world)
       = world_after Sample.world (self Sample.world) 0 1 0
           [EvAcquire; EvRelease; EvQuery (client_id c) (str "select n") 300 2]
    /\ str "job-1" = job_id job
    /\ Some (str "SELECT") = job_statement_type job
    /\ Some false = job_cache_hit job
    /\ Some 1024 = total_bytes_processed job
    /\ None = job_slot_millis job.
Proof.
  apply (execute_query_success_effects Sample.env Sample.world
           (snd (execute_query (str "select n") 3 Sample.env Sample.world))
           (str "select n") 3 Sample.result).
  reflexivity.
Defined.

End QueryEffects.

(** ** bigquery_service.py: how far the streaming loop reads *)

Section Streaming.

Import Service.

Variable C : Z.
Variable max_rows : Z.

Lemma loop_body_count row st :
  loop_row_count (loop_body C row st) = loop_row_count st + 1.
Proof.
  unfold loop_body.
  destruct (Z.of_nat (List.length (current_chunk st ++ [row])) >=? C); reflexivity.
Qed.

(** On an iterator that does not fail the loop returns, having consumed
    every row or stopped at the limit, and in any case one row if there is
    one. *)
Lemma stream_rows_clean rows :
  forall st, exists st',
    stream_rows C max_rows (clean rows) st = Return st'
    /\ loop_row_count st'
       = match rows with
         | [] => loop_row_count st
         | _ => Z.min (loop_row_count st + Z.of_nat (List.length rows))
                      (Z.max max_rows (loop_row_count st + 1))
         end.
Proof.
  induction rows as [|row rest IH]; intros st.
  - exists st. split; reflexivity.
  - simpl. pose proof (loop_body_count row st) as Hc.
    destruct (Z.geb_spec (loop_row_count (loop_body C row st)) max_rows) as [Hge | Hlt].
    + eexists. split; [reflexivity|]. lia.
    + destruct (IH (loop_body C row st)) as (st' & Hrun & Hcount).
      exists st'. split; [exact Hrun|]. rewrite Hcount.
      destruct rest; simpl List.length; lia.
Qed.

(** Items behind the row at which the loop stops are never read. *)
Lemma stream_rows_prefix pre post :
  forall st k,
    Z.of_nat k = Z.max (max_rows - loop_row_count st) 1 ->
    (k <= List.length pre)%nat ->
    stream_rows C max_rows (clean pre ++ post) st
    = stream_rows C max_rows (clean (firstn k pre)) st.
Proof.
  induction pre as [|row rest IH]; intros st k Hk Hlen.
  - simpl in Hlen. lia.
  - destruct k as [|k]; [lia|]. simpl.
    pose proof (loop_body_count row st) as Hc.
    destruct (Z.geb_spec (loop_row_count (loop_body C row st)) max_rows) as [Hge | Hlt];
      [reflexivity|].
    apply IH; [|simpl in Hlen; lia]. lia.
Qed.

(** A failure of the iterator that lies before the limit ends the loop. *)
Lemma stream_rows_failure pre exc post :
  forall st,
    pre = [] \/ loop_row_count st + Z.of_nat (List.length pre) < max_rows ->
    stream_rows C max_rows (clean pre ++ IterRaise exc :: post) st
    = if is_google_api_call_error exc then
        Raise (QueryExecutionError (str "Error streaming query results"))
      else Raise exc.
Proof.
  induction pre as [|row rest IH]; intros st H; [reflexivity|].
  destruct H as [H | H]; [discriminate H|]. simpl.
  pose proof (loop_body_count row st) as Hc. simpl List.length in H.
  destruct (Z.geb_spec (loop_row_count (loop_body C row st)) max_rows) as [Hge | Hlt];
    [lia|].
  apply IH. right. lia.
Qed.

End Streaming.

Section StreamingRuns.

Import Service.

Lemma execute_query_submitted env w sql max_rows c job iterator :
  _client (self w) = Some c ->
  client_query env (queries w) c sql = Submitted job iterator ->
  execute_query sql max_rows env w
  = (collect (_row_chunk_size (self w)) max_rows job iterator,
     world_after w (self w) 0 1 0
       [EvAcquire; EvRelease;
        EvQuery (client_id c) sql (_query_timeout_seconds (self w))
                (_row_chunk_size (self w))]).
Proof.
  intros Hc Hq. rewrite execute_query_run. cbv zeta. rewrite Hc, Hq.
  f_equal. world_eq.
Qed.

(** X11: when the iterator hands out [L] rows without failing, the query
    returns, with [min(L, max(max_rows, 1))] rows: all of them up to the
    limit, and one row even for a limit of zero or less, because the limit
    is tested after a row has been taken. *)
Theorem execute_query_row_count env w sql max_rows c job rows :
  _client (self w) = Some c ->
  client_query env (queries w) c sql = Submitted job (clean rows) ->
  exists result,
    fst (execute_query sql max_rows env w) = Return result
    /\ row_count result
       = Z.min (Z.of_nat (List.length rows)) (Z.max max_rows 1).
Proof.
  intros Hc Hq. rewrite (execute_query_submitted _ _ _ _ _ _ _ Hc Hq). cbn [fst].
  unfold collect.
  destruct (stream_rows_clean (_row_chunk_size (self w)) max_rows rows loop_start)
    as (st & Hrun & Hcount).
  rewrite Hrun. eexists. split; [reflexivity|]. cbn [row_count].
  rewrite Hcount. destruct rows; simpl; lia.
Qed.

(** Five rows on offer: a limit of 3 returns three, and a limit of 0 still
    returns one. *)
Lemma execute_query_row_count_witness :
  (exists result,
      fst (execute_query (str "select n") 3 Sample.env Sample.world) = Return result
      /\ row_count result = Z.min 5 (Z.max 3 1))
  /\ (exists result,
         fst (execute_query (str "select n") 0 Sample.env Sample.world) = Return result
         /\ row_count result = Z.min 5 (Z.max 0 1)).
Proof.
  split.
  - apply (execute_query_row_count Sample.env Sample.world (str "select n") 3
             {| client_id := 0; project := str "proj"; credentials := Sample.payload |}
             Sample.job (map Sample.row (seq 0 5))); reflexivity.
  - apply (execute_query_row_count Sample.env Sample.world (str "select n") 0
             {| client_id := 0; project := str "proj"; credentials := Sample.payload |}
             Sample.job (map Sample.row (seq 0 5))); reflexivity.
Defined.

(** X12: whatever the iterator holds behind its first [max(max_rows, 1)]
    rows, further rows or a failure, is never read: the outcome is the one
    for the iterator cut after those rows. *)
Theorem execute_query_stops_at_limit env w sql max_rows c job pre post :
  _client (self w) = Some c ->
  client_query env (queries w) c sql = Submitted job (clean pre ++ post) ->
  Z.max max_rows 1 <= Z.of_nat (List.length pre) ->
  fst (execute_query sql max_rows env w)
  = collect (_row_chunk_size (self w)) max_rows job
            (clean (firstn (Z.to_nat (Z.max max_rows 1)) pre)).
Proof.
  intros Hc Hq Hlen. rewrite (execute_query_submitted _ _ _ _ _ _ _ Hc Hq). cbn [fst].
  unfold collect.
  rewrite (stream_rows_prefix (_row_chunk_size (self w)) max_rows pre post loop_start
             (Z.to_nat (Z.max max_rows 1))); [reflexivity | simpl; lia | lia].
Qed.

(** The failure behind the second row is not seen with a limit of 2. *)
Lemma execute_query_stops_at_limit_witness :
  fst (execute_query (str "select n") 2 Sample.broken_stream_env Sample.world)
  = collect 2 2 Sample.job (clean [Sample.row 0; Sample.row 1]).
Proof.
  apply (execute_query_stops_at_limit Sample.broken_stream_env Sample.world
           (str "select n") 2
           {| client_id := 0; project := str "proj"; credentials := Sample.payload |}
           Sample.job [Sample.row 0; Sample.row 1]
           [IterRaise (GoogleAPICallError (str "expired") (Some 401));
            Yield (Sample.row 2)]).
  - reflexivity.
  - reflexivity.
  - discriminate.
Defined.

(** X13: a remote error raised by the iterator before the limit is
    reached makes the query fail with [QueryExecutionError] ("Error
    streaming query results"); whatever its status, 401 and 403 included,
    no credential refresh follows: the loader is not called and the
    client stays. *)
Theorem execute_query_stream_failure env w sql max_rows c job pre exc post :
  _client (self w) = Some c ->
  client_query env (queries w) c sql
  = Submitted job (clean pre ++ IterRaise exc :: post) ->
  Z.of_nat (List.length pre) < Z.max max_rows 1 ->
  is_google_api_call_error exc = true ->
  execute_query sql max_rows env w
  = (Raise (QueryExecutionError (str "Error streaming query results")),
     world_after w (self w) 0 1 0
       [EvAcquire; EvRelease;
        EvQuery (client_id c) sql (_query_timeout_seconds (self w))
                (_row_chunk_size (self w))]).
Proof.
  intros Hc Hq Hlen Hg. rewrite (execute_query_submitted _ _ _ _ _ _ _ Hc Hq).
  f_equal. unfold collect. rewrite stream_rows_failure, Hg; [reflexivity|].
  destruct pre; [now left | right]. simpl loop_row_count.
  simpl List.length in *. lia.
Qed.

(** Status 401 in the middle of the stream, limit 10: the query fails and
    the loader is left alone. *)
Lemma execute_query_stream_failure_witness :
  execute_query (str "select n") 10 Sample.broken_stream_env Sample.world
  = (Raise (QueryExecutionError (str "Error streaming query results")),
     world_after Sample.world (self Sample.world) 0 1 0
       [EvAcquire; EvRelease; EvQuery 0 (str "select n") 300 2]).
Proof.
  apply (execute_query_stream_failure Sample.broken_stream_env Sample.world
           (str "select n") 10
           {| client_id := 0; project := str "proj"; credentials := Sample.payload |}
           Sample.job [Sample.row 0; Sample.row 1]
           (GoogleAPICallError (str "expired") (Some 401))
           [Yield (Sample.row 2)]); reflexivity.
Defined.

End StreamingRuns.

(** ** bigquery_service.py: which client is installed *)

Section InstalledClient.

Import Service.

(** X14: when a query is rejected with status 401 or 403 and the refresh
    that follows succeeds, the query still fails with
    [QueryExecutionError], but the service has moved on: the handle the
    query ran on has been closed, a new handle built from the fresh
    payload is installed, and the payload is recorded. *)
Theorem execute_query_auth_failure_swaps env w sql max_rows c exc info p :
  _client (self w) = Some c ->
  client_query env (queries w) c sql = SubmitRaise exc ->
  is_google_api_call_error exc = true ->
  is_auth_code (exc_code exc) = true ->
  credential_loader env (loader_calls w) = Return info ->
  effective_project (_default_project (self w)) info = Some p ->
  truthy p = true ->
  from_service_account_info env info = true ->
  let run := execute_query sql max_rows env w in
  let fresh := {| client_id := clients w; project := p; credentials := info |} in
  fst run = Raise (QueryExecutionError
                     (str "Failed to execute query: " ++ exc_message exc))
  /\ self (snd run) = installed (self w) fresh info
  /\ closed_handles (trace (snd run))
     = closed_handles (trace w) ++ [client_id c]
  /\ loader_calls (snd run) = S (loader_calls w)
  /\ queries (snd run) = S (queries w).
Proof.
  intros Hc Hq Hg Ha Hl Hp Ht Hf. cbv zeta.
  rewrite execute_query_run. cbv zeta. rewrite Hc, Hq, Hg, maybe_refresh_run, Ha.
  rewrite refresh_client_run. cbv zeta.
  cbn [self log query_submitted loader_calls clients trace].
  rewrite Hl, Hp, Ht, Hf. cbn [fst snd world_after self trace loader_calls queries].
  unfold close_events. cbn [self log query_submitted]. rewrite Hc.
  repeat split.
  repeat (rewrite closed_handles_app; simpl). now rewrite ?app_nil_r.
Qed.

(** Status 403 and a working loader: client 0 is closed and client 1
    installed. *)
Lemma execute_query_auth_failure_swaps_witness :
  let w := snd (refresh_client Sample.expired_env (new_service None 300 500)) in
  let run := execute_query (str "select 1") 10 Sample.expired_env w in
  fst run = Raise (QueryExecutionError (str "Failed to execute query: forbidden"))
  /\ self (snd run)
     = installed (self w)
         {| client_id := 1; project := str "proj"; credentials := Sample.payload |}
         Sample.payload
  /\ closed_handles (trace (snd run)) = closed_handles (trace w) ++ [0%nat]
  /\ loader_calls (snd run) = 2%nat
  /\ queries (snd run) = 1%nat.
Proof.
  apply (execute_query_auth_failure_swaps Sample.expired_env
           (snd (refresh_client Sample.expired_env (new_service None 300 500)))
           (str "select 1") 10
           {| client_id := 0; project := str "proj"; credentials := Sample.payload |}
           (GoogleAPICallError (str "forbidden") (Some 403))
           Sample.payload (str "proj")); reflexivity.
Defined.

(** X15: the client a refresh installs belongs to the configured default
    project whenever that is a non-empty string, whatever the payload
    says; without one (unset or empty) it belongs to the [project_id] of
    the payload; in both cases the project is a non-empty string. *)
Theorem refresh_client_project env w :
  fst (refresh_client env w) = Return tt ->
  exists c info,
    _client (self (snd (refresh_client env w))) = Some c
    /\ credential_loader env (loader_calls w) = Return info
    /\ project c <> []
    /\ (forall d, _default_project (self w) = Some d -> d <> [] -> project c = d)
    /\ (_default_project (self w) = None \/ _default_project (self w) = Some [] ->
        dict_get (str "project_id") info = Some (project c)).
Proof.
  rewrite refresh_client_run. cbv zeta.
  destruct (credential_loader env (loader_calls w)) as [info | e]; [|discriminate].
  destruct (effective_project _ info) as [p|] eqn:Ep; [|discriminate].
  destruct (truthy p) eqn:Et; [|discriminate].
  destruct (from_service_account_info env info); [|discriminate].
  intros _.
  exists {| client_id := clients w; project := p; credentials := info |}, info.
  cbn [snd world_after self installed _client project].
  split; [reflexivity|]. split; [reflexivity|].
  unfold effective_project, py_or in Ep.
  split; [intros E; rewrite E in Et; discriminate Et|]. split.
  - intros d Hd Hne. rewrite Hd in Ep. destruct d; [now elim Hne|].
    simpl in Ep. now inversion Ep.
  - intros [Hd | Hd]; rewrite Hd in Ep; exact Ep.
Qed.

Lemma refresh_client_project_witness :
  exists c info,
    _client (self (snd (refresh_client Sample.env
                          (new_service (Some (str "analytics")) 300 500)))) = Some c
    /\ credential_loader Sample.env 0 = Return info
    /\ project c <> []
    /\ (forall d, Some (str "analytics") = Some d -> d <> [] -> project c = d)
    /\ (Some (str "analytics") = None \/ Some (str "analytics") = Some [] ->
        dict_get (str "project_id") info = Some (project c)).
Proof.
  apply (refresh_client_project Sample.env
           (new_service (Some (str "analytics")) 300 500)).
  reflexivity.
Defined.

End InstalledClient.

(** ** bigquery_service.py: no handle is left open behind *)

Section LiveHandle.

Import Service.

Lemma accounted_quiet w s loads submissions es :
  closed_handles es = [] ->
  _client s = _client (self w) ->
  accounted w ->
  accounted (world_after w s loads submissions 0 es).
Proof.
  intros Hes Hs H h Hh. simpl in *.
  rewrite closed_handles_app, Hes, app_nil_r, Hs. now apply H.
Qed.

Lemma accounted_swap w s loads submissions es c :
  closed_handles es = closed_handles (close_events (self w)) ->
  _client s = Some c ->
  client_id c = clients w ->
  accounted w ->
  accounted (world_after w s loads submissions 1 es).
Proof.
  intros Hes Hs Hid H h Hh. simpl in *.
  rewrite closed_handles_app, Hes, closed_close_events, Hs.
  destruct (Nat.eq_dec h (clients w)) as [-> | Hne].
  - right. now exists c.
  - left. apply in_or_app. destruct (H h) as [Hin | (old & Ho & Hoid)]; [lia | |].
    + now left.
    + right. rewrite Ho. simpl. now left.
Qed.

Lemma accounted_clear w s es c :
  _client (self w) = Some c ->
  closed_handles es = [client_id c] ->
  accounted w ->
  accounted (world_after w s 0 0 0 es).
Proof.
  intros Hc Hes H h Hh. simpl in *. left.
  rewrite closed_handles_app, Hes. apply in_or_app.
  destruct (H h Hh) as [Hin | (old & Ho & Hoid)]; [now left|].
  right. rewrite Hc in Ho. inversion Ho. subst. simpl. now left.
Qed.

Lemma accounted_log e w :
  closed_handles [e] = [] -> accounted w -> accounted (log e w).
Proof.
  intros He H. change (log e w) with (world_after w (self w) 0 0 0 [e]).
  now apply accounted_quiet.
Qed.

Lemma refresh_client_accounted env w :
  accounted w -> accounted (snd (refresh_client env w)).
Proof.
  intros H. rewrite refresh_client_run. cbv zeta.
  destruct (credential_loader env (loader_calls w)) as [info | e];
    [|now apply accounted_quiet].
  destruct (effective_project _ info) as [p|]; [|now apply accounted_quiet].
  destruct (truthy p); [|now apply accounted_quiet].
  destruct (from_service_account_info env info); [|now apply accounted_quiet].
  cbn [snd].
  eapply accounted_swap; [| reflexivity | reflexivity | exact H].
  rewrite !closed_handles_app. simpl. now rewrite app_nil_r.
Qed.

Lemma close_accounted env w : accounted w -> accounted (snd (close env w)).
Proof.
  intros H. rewrite close_run. cbn [snd].
  destruct (_client (self w)) as [c|] eqn:Ec.
  - eapply accounted_clear; [exact Ec | reflexivity | exact H].
  - now apply accounted_quiet.
Qed.

Lemma execute_query_accounted sql max_rows env w :
  accounted w -> accounted (snd (execute_query sql max_rows env w)).
Proof.
  intros H. rewrite execute_query_run. cbv zeta.
  assert (H1 : accounted (log EvRelease (log EvAcquire w))).
  { apply accounted_log; [reflexivity|]. now apply accounted_log. }
  destruct (_client (self w)) as [c|]; [|exact H1].
  match goal with
  | |- context [log (EvQuery ?i ?q ?t ?p) (query_submitted ?x)] =>
      assert (H2 : accounted (log (EvQuery i q t p) (query_submitted x)))
        by (apply accounted_log; [reflexivity | exact H1])
  end.
  destruct (client_query env (queries w) c sql) as [job iterator | exc];
    [exact H2|].
  destruct (is_google_api_call_error exc); [|exact H2].
  rewrite maybe_refresh_run.
  destruct (is_auth_code (exc_code exc)); [|exact H2].
  match goal with
  | |- context [refresh_client env ?x] =>
      pose proof (refresh_client_accounted env x H2) as H3;
      destruct (refresh_client env x) as [[[] | e] w3]
  end; [exact H3|].
  destruct e; exact H3.
Qed.

Lemma run_calls_accounted cs env w : accounted w -> accounted (run_calls cs env w).
Proof.
  revert w. induction cs as [|c cs IH]; intros w H; [exact H|].
  unfold run_calls. simpl. apply IH. destruct c; simpl.
  - now apply refresh_client_accounted.
  - now apply close_accounted.
  - rewrite get_table_schema_world.
    destruct (_client (self w)); now apply accounted_quiet.
  - now apply execute_query_accounted.
Qed.

(** X16: in every world a service reaches from its construction, by any
    calls and whatever its collaborators answer, each handle it has built
    is either the one installed, and then not closed, or has been closed,
    and then is not installed: at most one handle is live, and none is
    left open behind. *)
Theorem one_live_handle env default_project query_timeout_seconds row_chunk_size
    calls h :
  let w := run_calls calls env
                     (new_service default_project query_timeout_seconds
                                  row_chunk_size) in
  (h < clients w)%nat ->
  (In h (closed_handles (trace w))
   /\ forall c, _client (self w) = Some c -> client_id c <> h)
  \/ (~ In h (closed_handles (trace w))
      /\ exists c, _client (self w) = Some c /\ client_id c = h).
Proof.
  cbv zeta. intros Hh.
  set (w := run_calls calls env _) in *.
  assert (Hok : handles_ok w)
    by apply run_calls_handles, handles_ok_new_service.
  assert (Hacc : accounted w).
  { apply run_calls_accounted. intros k Hk. simpl in Hk. lia. }
  destruct (Hacc h Hh) as [Hin | (c & Hc & Hid)].
  - left. split; [exact Hin|]. intros c Hc Hid.
    destruct (ok_live _ Hok c Hc) as (_ & Hfresh). apply Hfresh. now rewrite Hid.
  - right. split; [|now exists c].
    destruct (ok_live _ Hok c Hc) as (_ & Hfresh). now rewrite <- Hid.
Qed.

(** Built twice, closed by the second refresh and by [close]: handle 0 is
    closed and not installed. *)
Lemma one_live_handle_witness :
  let w := run_calls [CallRefresh; CallRefresh; CallClose] Sample.env
                     (new_service None 300 500) in
  (In 0%nat (closed_handles (trace w))
   /\ forall c, _client (self w) = Some c -> client_id c <> 0%nat)
  \/ (~ In 0%nat (closed_handles (trace w))
      /\ exists c, _client (self w) = Some c /\ client_id c = 0%nat).
Proof.
  apply (one_live_handle Sample.env None 300 500
           [CallRefresh; CallRefresh; CallClose] 0%nat).
  vm_compute. repeat constructor.
Defined.

End LiveHandle.

(** ** server.py: the envelopes of the tools *)

Section ToolEnvelopes.

Import Utils Server.

(** X17: the schema tool answers every failure of the server's own kinds
    with an envelope: a table the warehouse does not find gives code
    [TABLE_NOT_FOUND] with the message naming the reference and no detail,
    a missing service gives [SCHEMA_ERROR]; an error envelope has no other
    code than these two, every envelope carries the request id of the
    call, a success echoes the dataset id and the table name, and only an
    exception foreign to the server's hierarchy can leave the tool. *)
Theorem schema_tool_envelopes env g request_id dataset_id table_name :
  let run := get_table_schema env request_id dataset_id table_name g in
  (forall service c table_ref message,
      BIGQUERY g = Some service ->
      Service._client (Service.self service) = Some c ->
      table_ref = Service._build_table_reference dataset_id table_name
                    (Service.project c) ->
      Service.client_get_table env c table_ref = Service.LookupRaise (NotFound message) ->
      fst run = Return (Failure request_id
                          {| code := str "TABLE_NOT_FOUND";
                             message := str "Table '" ++ table_ref
                                        ++ str "' was not found";
                             detail := None |}))
  /\ (BIGQUERY g = None ->
      run = (Return (Failure request_id
                       {| code := str "SCHEMA_ERROR";
                          message := str "Unable to load schema";
                          detail := Some (str "BigQuery service has not been initialized") |}),
             g))
  /\ (forall e, fst run = Raise e -> server_error_text e = None)
  /\ (forall id payload, fst run = Return (Success id payload) ->
      id = request_id /\ Server.dataset_id payload = dataset_id
      /\ Server.table_name payload = table_name)
  /\ (forall id err, fst run = Return (Failure id err) ->
      id = request_id
      /\ (code err = str "TABLE_NOT_FOUND" \/ code err = str "SCHEMA_ERROR")).
Proof.
  cbv zeta. unfold get_table_schema, call_schema_service.
  split; [|split; [|split; [|split]]].
  - intros service c table_ref msg Hs Hc -> Hm. rewrite Hs.
    destruct (Service.get_table_schema dataset_id table_name env service)
      as [r service'] eqn:Er.
    assert (Hr : r = fst (Service.get_table_schema dataset_id table_name env service))
      by now rewrite Er.
    rewrite get_table_schema_result, Hc in Hr. cbv zeta in Hr. rewrite Hm in Hr.
    subst r. reflexivity.
  - intros ->. reflexivity.
  - intros e.
    destruct (BIGQUERY g) as [service|]; [|discriminate].
    destruct (Service.get_table_schema dataset_id table_name env service)
      as [[schema | exc] service']; [discriminate|].
    destruct exc; simpl; intros H; inversion H; reflexivity.
  - intros id payload.
    destruct (BIGQUERY g) as [service|]; [|discriminate].
    destruct (Service.get_table_schema dataset_id table_name env service)
      as [[schema | exc] service'].
    + intros H. inversion H. repeat split.
    + destruct exc; simpl; discriminate.
  - intros id err.
    destruct (BIGQUERY g) as [service|].
    + destruct (Service.get_table_schema dataset_id table_name env service)
        as [[schema | exc] service']; [discriminate|].
      destruct exc; simpl; intros H; inversion H; split; auto.
    + intros H. inversion H. split; auto.
Qed.

(** A table the sample warehouse does not know. *)
Lemma schema_tool_envelopes_witness :
  fst (get_table_schema Sample.env (str "req-7") (str "sales") (str "orders")
         Sample.globals)
  = Return (Failure (str "req-7")
              {| code := str "TABLE_NOT_FOUND";
                 message := str "Table 'proj.sales.orders' was not found";
                 detail := None |}).
Proof.
  exact (proj1 (schema_tool_envelopes Sample.env Sample.globals (str "req-7")
                  (str "sales") (str "orders"))
               Sample.world
               {| Service.client_id := 0; Service.project := str "proj";
                  Service.credentials := Sample.payload |}
               (str "proj.sales.orders") (str "no such table")
               eq_refl eq_refl eq_refl eq_refl).
Defined.

(** X18: SQL the validator rejects never reaches the service: the query
    tool answers with an [INVALID_SQL] envelope carrying the validator's
    message and leaves the globals, the service among them, as they were.
    Every envelope of the tool carries the request id of the call, and an
    error envelope has code [INVALID_SQL] or [QUERY_FAILURE]. *)
Theorem query_tool_envelopes env g request_id sql max_rows :
  let run := execute_query env request_id sql max_rows g in
  (forall msg, validate_sql_query sql = Raise (QueryValidationError msg) ->
      run = (Return (Failure request_id
                       {| code := str "INVALID_SQL"; message := msg;
                          detail := None |}), g))
  /\ (forall id payload, fst run = Return (Success id payload) ->
      id = request_id /\ validate_sql_query sql = Return (Server.sql payload))
  /\ (forall id err, fst run = Return (Failure id err) ->
      id = request_id
      /\ (code err = str "INVALID_SQL" /\ snd run = g
          \/ code err = str "QUERY_FAILURE"
             /\ message err = str "BigQuery query failed")).
Proof.
  cbv zeta. unfold execute_query. split; [|split].
  - intros msg Hv. unfold prepare. now rewrite Hv.
  - intros id payload.
    destruct (validate_sql_query sql) as [v | e] eqn:Ev.
    + rewrite (prepare_run _ _ _ _ Ev). cbv zeta.
      destruct (_ <=? 0); [discriminate|].
      destruct (call_service env g v _) as [[result | exc] g'].
      * intros H. inversion H. now split.
      * destruct exc; discriminate.
    + unfold prepare. rewrite Ev. destruct e; discriminate.
  - intros id err.
    destruct (validate_sql_query sql) as [v | e] eqn:Ev.
    + rewrite (prepare_run _ _ _ _ Ev). cbv zeta.
      destruct (_ <=? 0).
      * intros H. inversion H. split; [reflexivity|]. now left.
      * destruct (call_service env g v _) as [[result | exc] g']; [discriminate|].
        destruct exc; try discriminate.
        intros H. inversion H. split; [reflexivity|]. now right.
    + unfold prepare. rewrite Ev. destruct e; try discriminate.
      intros H. inversion H. split; [reflexivity|]. now left.
Qed.

Lemma query_tool_envelopes_witness :
  execute_query Sample.env (str "req-3") (str "drop table t") None Sample.globals
  = (Return (Failure (str "req-3")
               {| code := str "INVALID_SQL"; message := msg_read_only;
                  detail := None |}), Sample.globals).
Proof.
  exact (proj1 (query_tool_envelopes Sample.env Sample.globals (str "req-3")
                  (str "drop table t") None)
               msg_read_only eq_refl).
Defined.

End ToolEnvelopes.

Section ToolRowBound.

Import Utils Server.

Lemma sum_chunk_rows_format result sql limit :
  sum_chunk_rows (chunks (_format_query_result result sql limit))
  = sum_rows (Service.chunks result).
Proof.
  unfold _format_query_result. cbn [chunks].
  induction (Service.chunks result) as [|c cs IH]; [reflexivity|].
  simpl. now rewrite IH.
Qed.

Lemma sum_rows_nonneg cs : 0 <= sum_rows cs.
Proof. induction cs as [|c cs IH]; simpl; lia. Qed.

(** X19: a success payload of the query tool never holds more rows than
    asked for nor than the server allows: its [max_rows] is positive, at
    most the server limit and at most the [max_rows] of the call, its
    [row_count] is at most its [max_rows], the row counts of its chunks
    add up to [row_count], and every chunk holds between one row and a
    chunk size of rows, as many as it announces. *)
Theorem query_tool_row_bound env g g' request_id sql max_rows id payload service :
  execute_query env request_id sql max_rows g = (Return (Success id payload), g') ->
  BIGQUERY g = Some service ->
  0 < Service._row_chunk_size (Service.self service) ->
  0 < Server.max_rows payload <= default_limit g
  /\ (forall m, max_rows = Some m -> Server.max_rows payload <= m)
  /\ 0 <= row_count payload <= Server.max_rows payload
  /\ sum_chunk_rows (chunks payload) = row_count payload
  /\ (forall c, In c (chunks payload) ->
      chunk_row_count c = Z.of_nat (List.length (rows c))
      /\ 1 <= chunk_row_count c <= Service._row_chunk_size (Service.self service)).
Proof.
  intros H Hs HC. unfold execute_query in H.
  destruct (validate_sql_query sql) as [v | e] eqn:Ev;
    [|unfold prepare in H; rewrite Ev in H; destruct e; discriminate].
  rewrite (prepare_run _ _ _ _ Ev) in H. cbv zeta in H.
  set (limit := match max_rows with
                | Some m => if m >? default_limit g then default_limit g else m
                | None => default_limit g
                end) in *.
  assert (Hlim : limit <= default_limit g
                 /\ forall m, max_rows = Some m -> limit <= m).
  { unfold limit. destruct max_rows as [m|].
    - destruct (Z.gtb_spec m (default_limit g)); split; try lia;
        intros m' Hm; inversion Hm; lia.
    - split; [lia | discriminate]. }
  destruct (Z.leb_spec limit 0) as [Hle | Hpos]; [discriminate|].
  unfold call_service in H. rewrite Hs in H.
  destruct (Service.execute_query v limit env service) as [[result | exc] service'] eqn:Er;
    [|destruct exc; discriminate].
  inversion H. subst id payload g'. clear H.
  destruct (execute_query_returns _ _ _ _ _ _ Er) as (c & job & it & _ & _ & Hcol).
  destruct (collect_chunked _ _ _ _ _ HC Hcol) as (Hch & Hbound).
  rewrite sum_chunk_rows_format.
  change (Server.max_rows (_format_query_result result v limit)) with limit.
  change (row_count (_format_query_result result v limit))
    with (Service.row_count result).
  destruct Hlim as (Hlim & Hasked).
  split; [lia|]. split; [exact Hasked|]. split; [|split].
  - split; [|apply Hbound; lia].
    rewrite <- (chunked_sum _ _ _ _ Hch). apply sum_rows_nonneg.
  - apply (chunked_sum _ _ _ _ Hch).
  - intros cp Hin. unfold _format_query_result in Hin. cbn [chunks] in Hin.
    apply in_map_iff in Hin. destruct Hin as (chunk & <- & Hin).
    cbn [chunk_row_count rows]. split; [reflexivity|].
    apply In_nth_error in Hin. destruct Hin as (i & Hi).
    exact (chunked_size _ _ _ _ Hch i chunk Hi).
Qed.

(** Ten rows asked of a server that allows four, five on offer, chunks of
    two: four rows come back in two chunks. *)
Lemma query_tool_row_bound_witness :
  exists payload,
    fst (execute_query Sample.env (str "req-1") (str "select n") (Some 10)
           Sample.globals)
    = Return (Success (str "req-1") payload)
    /\ 0 < Server.max_rows payload <= 4
    /\ (forall m, Some 10 = Some m -> Server.max_rows payload <= m)
    /\ 0 <= row_count payload <= Server.max_rows payload
    /\ sum_chunk_rows (chunks payload) = row_count payload
    /\ (forall c, In c (chunks payload) ->
        chunk_row_count c = Z.of_nat (List.length (rows c))
        /\ 1 <= chunk_row_count c <= 2).
Proof.
  eexists. split; [reflexivity|].
  apply (query_tool_row_bound Sample.env Sample.globals
           (snd (execute_query Sample.env (str "req-1") (str "select n") (Some 10)
                   Sample.globals))
           (str "req-1") (str "select n") (Some 10) (str "req-1") _ Sample.world).
  - reflexivity.
  - reflexivity.
  - reflexivity.
Defined.

End ToolRowBound.

(** ** config.py: what [load_config] lets through *)

Section LoadConfig.

Import Config.

Lemma parse_int_cases int_of value default name n :
  _parse_int int_of value default name = Return n ->
  (value = None /\ n = default)
  \/ (exists v, value = Some v /\ int_of v = Some n /\ 0 < n).
Proof.
  unfold _parse_int. destruct value as [v|].
  - destruct (int_of v) as [parsed|] eqn:Ei; [|discriminate].
    destruct (Z.leb_spec parsed 0) as [Hle | Hgt]; [discriminate|].
    intros H. inversion H. subst. right. now exists v.
  - intros H. inversion H. now left.
Qed.

Lemma parse_int_raises int_of value default name e :
  _parse_int int_of value default name = Raise e ->
  exists msg, e = ConfigurationError msg.
Proof.
  unfold _parse_int. destruct value as [v|]; [|discriminate].
  destruct (int_of v) as [parsed|]; [|intros H; inversion H; now eexists].
  destruct (parsed <=? 0); [|discriminate].
  intros H. inversion H. now eexists.
Qed.

Lemma falsy_false a : falsy a = false -> exists s, a = Some s /\ s <> [] /\ or_default a [] = s.
Proof.
  destruct a as [[|c s]|]; try discriminate. intros _.
  exists (c :: s). repeat split. discriminate.
Qed.

(** X20: a configuration [load_config] returns is valid: region and
    secret name are the non-empty values of the environment, the log
    level is one of the five known levels, the three integer settings are
    strictly positive, each the default (300, 10000, 500) when its
    variable is unset and the parsed value otherwise, and the project and
    the endpoint are passed through as they are. *)
Theorem load_config_valid os config :
  load_config os = Return config ->
  (getenv os (str "AWS_REGION") = Some (aws_region config)
   /\ aws_region config <> [])
  /\ (getenv os (str "SECRET_NAME") = Some (secret_name config)
      /\ secret_name config <> [])
  /\ In (log_level config) VALID_LOG_LEVELS
  /\ bigquery_project config = getenv os (str "BIGQUERY_PROJECT")
  /\ secrets_endpoint_url config = getenv os (str "AWS_SECRETS_ENDPOINT")
  /\ (0 < query_timeout_seconds config
      /\ (getenv os (str "QUERY_TIMEOUT_SECONDS") = None ->
          query_timeout_seconds config = 300))
  /\ (0 < default_max_rows config
      /\ (getenv os (str "DEFAULT_MAX_ROWS") = None ->
          default_max_rows config = 10000))
  /\ (0 < row_chunk_size config
      /\ (getenv os (str "ROW_CHUNK_SIZE") = None -> row_chunk_size config = 500)).
Proof.
  unfold load_config.
  remember (getenv os (str "AWS_REGION")) as region eqn:Hregion.
  remember (getenv os (str "SECRET_NAME")) as secret eqn:Hsecret.
  remember (getenv os (str "QUERY_TIMEOUT_SECONDS")) as qt eqn:Hqt.
  remember (getenv os (str "DEFAULT_MAX_ROWS")) as mr eqn:Hmr.
  remember (getenv os (str "ROW_CHUNK_SIZE")) as cs eqn:Hcs.
  clear Hregion Hsecret Hqt Hmr Hcs.
  destruct (falsy region) eqn:Er; [discriminate|].
  destruct (falsy secret) eqn:Es; [discriminate|].
  destruct (mem _ VALID_LOG_LEVELS) eqn:El; [|discriminate]. simpl negb. cbv iota.
  destruct (_parse_int _ qt _ _) as [t | e] eqn:Et; [|discriminate].
  destruct (_parse_int _ mr _ _) as [m | e] eqn:Em; [|discriminate].
  destruct (_parse_int _ cs _ _) as [c | e] eqn:Ec; [|discriminate].
  intros [= <-].
  cbn [aws_region secret_name bigquery_project log_level secrets_endpoint_url
       query_timeout_seconds default_max_rows row_chunk_size].
  destruct (falsy_false _ Er) as (r & Hr & Hrne & Hrd).
  destruct (falsy_false _ Es) as (s & Hs & Hsne & Hsd).
  rewrite Hrd, Hsd.
  split; [now split|]. split; [now split|]. split; [now apply mem_In|].
  split; [reflexivity|]. split; [reflexivity|].
  apply parse_int_cases in Et, Em, Ec.
  repeat split.
  - destruct Et as [(_ & ->) | (v & _ & _ & Hp)]; lia.
  - intros Hn. destruct Et as [(_ & ->) | (v & Hv & _)]; [reflexivity | congruence].
  - destruct Em as [(_ & ->) | (v & _ & _ & Hp)]; lia.
  - intros Hn. destruct Em as [(_ & ->) | (v & Hv & _)]; [reflexivity | congruence].
  - destruct Ec as [(_ & ->) | (v & _ & _ & Hp)]; lia.
  - intros Hn. destruct Ec as [(_ & ->) | (v & Hv & _)]; [reflexivity | congruence].
Qed.

Lemma load_config_valid_witness :
  exists config,
    load_config Sample.os = Return config
    /\ aws_region config = str "eu-west-1"
    /\ In (log_level config) VALID_LOG_LEVELS
    /\ 0 < query_timeout_seconds config
    /\ 0 < default_max_rows config
    /\ row_chunk_size config = 250.
Proof.
  eexists. split; [reflexivity|].
  pose proof (load_config_valid Sample.os _ eq_refl) as H.
  cbn in H. repeat split; try reflexivity; apply H.
Defined.

(** X21: [load_config] raises nothing but [ConfigurationError]; it raises
    it whenever the region or the secret name is unset or empty
    (the region is looked at first); it returns only if every integer
    setting that is present parses to a strictly positive integer. *)
Theorem load_config_failures os :
  (forall e, load_config os = Raise e -> exists msg, e = ConfigurationError msg)
  /\ (falsy (getenv os (str "AWS_REGION")) = true ->
      load_config os
      = Raise (ConfigurationError
                 (str "AWS_REGION is required for Secrets Manager access")))
  /\ (falsy (getenv os (str "AWS_REGION")) = false ->
      falsy (getenv os (str "SECRET_NAME")) = true ->
      load_config os
      = Raise (ConfigurationError
                 (str "SECRET_NAME is required for Secrets Manager access")))
  /\ (forall config name v,
        load_config os = Return config ->
        In name [str "QUERY_TIMEOUT_SECONDS"; str "DEFAULT_MAX_ROWS";
                 str "ROW_CHUNK_SIZE"] ->
        getenv os name = Some v -> exists n, int_of os v = Some n /\ 0 < n).
Proof.
  split; [|split; [|split]].
  - intros e. unfold load_config.
    destruct (falsy (getenv os (str "AWS_REGION")));
      [intros H; inversion H; now eexists|].
    destruct (falsy (getenv os (str "SECRET_NAME")));
      [intros H; inversion H; now eexists|].
    destruct (negb (mem _ VALID_LOG_LEVELS));
      [intros H; inversion H; now eexists|].
    destruct (_parse_int _ (getenv os (str "QUERY_TIMEOUT_SECONDS")) _ _)
      as [t | e1] eqn:Et;
      [|intros H; inversion H; subst; eapply parse_int_raises; exact Et].
    destruct (_parse_int _ (getenv os (str "DEFAULT_MAX_ROWS")) _ _)
      as [m | e1] eqn:Em;
      [|intros H; inversion H; subst; eapply parse_int_raises; exact Em].
    destruct (_parse_int _ (getenv os (str "ROW_CHUNK_SIZE")) _ _)
      as [c | e1] eqn:Ec;
      [|intros H; inversion H; subst; eapply parse_int_raises; exact Ec].
    discriminate.
  - intros H. unfold load_config. now rewrite H.
  - intros H1 H2. unfold load_config. now rewrite H1, H2.
  - intros config name v H Hin Hv. unfold load_config in H.
    destruct (falsy (getenv os (str "AWS_REGION"))); [discriminate|].
    destruct (falsy (getenv os (str "SECRET_NAME"))); [discriminate|].
    destruct (negb (mem _ VALID_LOG_LEVELS)); [discriminate|].
    destruct (_parse_int _ (getenv os (str "QUERY_TIMEOUT_SECONDS")) _ _)
      as [t | e1] eqn:Et; [|discriminate].
    destruct (_parse_int _ (getenv os (str "DEFAULT_MAX_ROWS")) _ _)
      as [m | e1] eqn:Em; [|discriminate].
    destruct (_parse_int _ (getenv os (str "ROW_CHUNK_SIZE")) _ _)
      as [c | e1] eqn:Ec; [|discriminate].
    apply parse_int_cases in Et, Em, Ec.
    destruct Hin as [<- | [<- | [<- | []]]].
    + destruct Et as [(Hnone & _) | (v' & Hv' & Hn' & Hp)]; [congruence|].
      assert (v' = v) by congruence. subst v'. now exists t.
    + destruct Em as [(Hnone & _) | (v' & Hv' & Hn' & Hp)]; [congruence|].
      assert (v' = v) by congruence. subst v'. now exists m.
    + destruct Ec as [(Hnone & _) | (v' & Hv' & Hn' & Hp)]; [congruence|].
      assert (v' = v) by congruence. subst v'. now exists c.
Qed.

(** A chunk size of zero is refused. *)
Lemma load_config_failures_witness :
  exists msg,
    ConfigurationError (str "ROW_CHUNK_SIZE must be greater than zero")
    = ConfigurationError msg.
Proof.
  exact (proj1 (load_config_failures Sample.bad_os)
               (ConfigurationError (str "ROW_CHUNK_SIZE must be greater than zero"))
               eq_refl).
Defined.

End LoadConfig.

(** ** logging_config.py: the keys of a log line *)

Section LogPayload.

Import LoggingConfig.

Implicit Types items payload extra : list (pystr * pystr).

Lemma has_key_In key payload : has_key key payload = true <-> In key (map fst payload).
Proof. apply mem_In. Qed.

(** The loop only appends: entries of the record that are public, not
    standard attributes and not yet in the payload; no key is entered
    twice, and no such attribute is left out. *)
Lemma add_custom_spec items :
  forall payload, exists extra,
    add_custom items payload = payload ++ extra
    /\ (NoDup (map fst payload) -> NoDup (map fst (payload ++ extra)))
    /\ (forall k v, In (k, v) extra ->
          is_private k = false /\ ~ In k STANDARD_ATTRIBUTES
          /\ ~ In k (map fst payload) /\ In (k, v) items)
    /\ (forall k v, In (k, v) items -> is_private k = false ->
          ~ In k STANDARD_ATTRIBUTES -> In k (map fst (payload ++ extra))).
Proof.
  induction items as [|[key value] rest IH]; intros payload.
  - exists []. rewrite app_nil_r. split; [reflexivity|]. split; [tauto|].
    split; intros k v [].
  - simpl add_custom.
    assert (Hskip : forall extra,
      add_custom rest payload = payload ++ extra ->
      (NoDup (map fst payload) -> NoDup (map fst (payload ++ extra))) ->
      (forall k v, In (k, v) extra ->
          is_private k = false /\ ~ In k STANDARD_ATTRIBUTES
          /\ ~ In k (map fst payload) /\ In (k, v) rest) ->
      (forall k v, In (k, v) rest -> is_private k = false ->
          ~ In k STANDARD_ATTRIBUTES -> In k (map fst (payload ++ extra))) ->
      is_private key = true \/ has_key key payload = true
      \/ mem key STANDARD_ATTRIBUTES = true ->
      exists extra',
        add_custom rest payload = payload ++ extra'
        /\ (NoDup (map fst payload) -> NoDup (map fst (payload ++ extra')))
        /\ (forall k v, In (k, v) extra' ->
              is_private k = false /\ ~ In k STANDARD_ATTRIBUTES
              /\ ~ In k (map fst payload) /\ In (k, v) ((key, value) :: rest))
        /\ (forall k v, In (k, v) ((key, value) :: rest) -> is_private k = false ->
              ~ In k STANDARD_ATTRIBUTES -> In k (map fst (payload ++ extra')))).
    { intros extra He Hn Hx Hc Hwhy. exists extra. repeat split; try assumption.
      - now apply (Hx k v).
      - now apply (Hx k v).
      - now apply (Hx k v).
      - right. now apply (Hx k v).
      - intros k v [Heq | Hin] Hp Hs; [|now apply (Hc k v)].
        inversion Heq. subst k v.
        destruct Hwhy as [Hw | [Hw | Hw]].
        + congruence.
        + rewrite map_app. apply in_or_app. left. now apply has_key_In.
        + apply mem_In in Hw. contradiction. }
    destruct (is_private key) eqn:Ep.
    { destruct (IH payload) as (extra & He & Hn & Hx & Hc).
      apply (Hskip extra); auto. }
    destruct (has_key key payload) eqn:Eh.
    { destruct (IH payload) as (extra & He & Hn & Hx & Hc).
      apply (Hskip extra); auto. }
    destruct (mem key STANDARD_ATTRIBUTES) eqn:Es.
    { destruct (IH payload) as (extra & He & Hn & Hx & Hc).
      apply (Hskip extra); auto. }
    clear Hskip.
    destruct (IH (payload ++ [(key, value)])) as (extra & He & Hn & Hx & Hc).
    assert (Hfresh : ~ In key (map fst payload)).
    { intros Hin. apply has_key_In in Hin. congruence. }
    exists ((key, value) :: extra). rewrite He, <- app_assoc. simpl app.
    split; [reflexivity|]. split; [|split].
    + intros Hnd.
      replace (payload ++ (key, value) :: extra)
        with ((payload ++ [(key, value)]) ++ extra)
        by (now rewrite <- app_assoc).
      apply Hn. rewrite map_app. simpl.
      apply NoDup_app; [exact Hnd | repeat constructor; intros [] |].
      intros k Hk [<- | []]. contradiction.
    + intros k v [Heq | Hin].
      * inversion Heq. subst k v. repeat split; try assumption.
        -- now apply mem_not_In.
        -- now left.
      * destruct (Hx k v Hin) as (H1 & H2 & H3 & H4). repeat split; try assumption.
        -- intros Hk. apply H3. rewrite map_app. apply in_or_app. now left.
        -- now right.
    + intros k v [Heq | Hin] Hp Hs.
      * inversion Heq. subst k v. rewrite map_app. apply in_or_app. right.
        simpl. now left.
      * specialize (Hc k v Hin Hp Hs).
        now rewrite <- app_assoc in Hc.
Qed.

Lemma keys_functional payload k v v' :
  NoDup (map fst payload) -> In (k, v) payload -> In (k, v') payload -> v = v'.
Proof.
  induction payload as [|[k0 v0] rest IH]; intros Hnd H1 H2; [destruct H1|].
  simpl in Hnd. inversion Hnd as [|? ? Hnot Hrest]. subst.
  destruct H1 as [E1 | H1], H2 as [E2 | H2].
  - congruence.
  - inversion E1. subst. elim Hnot. apply in_map_iff. now exists (k, v').
  - inversion E2. subst. elim Hnot. apply in_map_iff. now exists (k, v).
  - now apply IH.
Qed.

(** X22: the dict a log line is dumped from starts with the four keys
    [timestamp], [level], [logger] and [message] in this order, followed
    by [exc_info] when the record has exception information; no key
    occurs twice, so no attribute of the record can replace one of them;
    every other entry is an attribute of the record that is not private
    (no leading underscore) and not one of the standard attributes, and
    every such attribute has its key in the dict. *)
Theorem format_payload_keys timestamp record :
  let payload := format_payload timestamp record in
  let base := [(str "timestamp", timestamp); (str "level", levelname record);
               (str "logger", name record); (str "message", message record)] in
  NoDup (map fst payload)
  /\ firstn 4 payload = base
  /\ (forall text, exc_info record = Some text ->
      nth_error payload 4 = Some (str "exc_info", text))
  /\ (forall v, In (str "message", v) payload -> v = message record)
  /\ (forall k v, In (k, v) payload ->
      In (k, v) base
      \/ exc_info record = Some v /\ k = str "exc_info"
      \/ is_private k = false /\ ~ In k STANDARD_ATTRIBUTES
         /\ In (k, v) (record_dict record))
  /\ (forall k v, In (k, v) (record_dict record) ->
      is_private k = false -> ~ In k STANDARD_ATTRIBUTES ->
      In k (map fst payload)).
Proof.
  cbv zeta. unfold format_payload.
  set (base := [(str "timestamp", timestamp); (str "level", levelname record);
                (str "logger", name record); (str "message", message record)]).
  assert (Hbase : NoDup (map fst base)).
  { simpl. repeat constructor; simpl; intuition discriminate. }
  destruct (exc_info record) as [text|].
  - assert (Hnd : NoDup (map fst (base ++ [(str "exc_info", text)]))).
    { simpl. repeat constructor; simpl; intuition discriminate. }
    destruct (add_custom_spec (record_dict record) (base ++ [(str "exc_info", text)]))
      as (extra & He & Hn & Hx & Hc).
    rewrite He. specialize (Hn Hnd).
    split; [exact Hn|]. split; [reflexivity|].
    split; [intros t Ht; inversion Ht; reflexivity|]. split; [|split].
    + intros v Hv. eapply keys_functional; [exact Hn | exact Hv|].
      simpl. tauto.
    + intros k v Hin. apply in_app_or in Hin. destruct Hin as [Hin | Hin].
      * apply in_app_or in Hin. destruct Hin as [Hin | [Heq | []]]; [now left|].
        inversion Heq. subst. right. left. now split.
      * right. right. destruct (Hx k v Hin) as (H1 & H2 & _ & H4). now repeat split.
    + exact Hc.
  - destruct (add_custom_spec (record_dict record) base)
      as (extra & He & Hn & Hx & Hc).
    rewrite He. specialize (Hn Hbase).
    split; [exact Hn|]. split; [reflexivity|].
    split; [discriminate|]. split; [|split].
    + intros v Hv. eapply keys_functional; [exact Hn | exact Hv|].
      simpl. tauto.
    + intros k v Hin. apply in_app_or in Hin. destruct Hin as [Hin | Hin];
        [now left|].
      right. right. destruct (Hx k v Hin) as (H1 & H2 & _ & H4). now repeat split.
    + exact Hc.
Qed.

(** An attribute named [message] cannot replace the message, private and
    standard attributes are left out, and [request_id] gets in. *)
Lemma format_payload_keys_witness :
  In (str "request_id")
     (map fst (format_payload (str "2025-01-01T00:00:00+00:00") Sample.log_record))
  /\ forall v,
       In (str "message", v)
          (format_payload (str "2025-01-01T00:00:00+00:00") Sample.log_record) ->
       v = str "Query completed".
Proof.
  pose proof (format_payload_keys (str "2025-01-01T00:00:00+00:00") Sample.log_record)
    as (_ & _ & _ & Hm & _ & Hc).
  split.
  - apply (Hc (str "request_id") (str "req-1")).
    + simpl. tauto.
    + reflexivity.
    + simpl. intros H. repeat (destruct H as [H | H]; [discriminate H|]). exact H.
  - exact Hm.
Defined.

End LogPayload.

(** ** bigquery_service.py: a rejected query and a failing loader *)

Section RejectedQuery.

Import Service.

(** Status 403 while the loader fails: the refresh error is swallowed and
    the query fails with [QueryExecutionError] after one more loader
    call. *)
Lemma execute_query_submit_failure_witness :
  let w := snd (refresh_client Sample.flaky_env (new_service None 300 500)) in
  fst (execute_query (str "select 1") 10 Sample.flaky_env w)
  = Raise (QueryExecutionError (str "Failed to execute query: denied"))
  /\ loader_calls (snd (execute_query (str "select 1") 10 Sample.flaky_env w)) = 2%nat
  /\ queries (snd (execute_query (str "select 1") 10 Sample.flaky_env w)) = 1%nat.
Proof.
  cbv zeta.
  pose proof (execute_query_submit_failure Sample.flaky_env
                (snd (refresh_client Sample.flaky_env (new_service None 300 500)))
                (str "select 1") 10
                {| client_id := 0; project := str "proj";
                   credentials := Sample.payload |}
                (GoogleAPICallError (str "denied") (Some 403))
                eq_refl eq_refl eq_refl) as (Hq & _ & Ha).
  destruct (Ha eq_refl) as (Hl & _ & Hf).
  split; [rewrite Hf; reflexivity|]. split; [exact Hl | exact Hq].
Defined.

End RejectedQuery.
